(** * vault_detection: the top-holders scanner of [main.py]

    A shallow embedding of the class [TopHolders]: the chunked, descending
    scan of [Deposit] logs with its halving retry, the deposit record it
    builds, the selection of the reference reserve, the zero-balance filter
    and ranking, and the number formatter [millify].

    Python integers are unbounded, so block heights, widths and token
    amounts are [Z].  Addresses are strings.  A Python [dict] keeps its keys
    in insertion order and the report is produced by iterating over the
    keys, so the deposit record is an association list in insertion order.
    Exceptions are values of [exn]; a computation that may raise returns an
    [outcome].  The [while True] loop of the scan is run with fuel, and
    every statement that the scan returns is proved with enough fuel. *)

From Stdlib Require Import ZArith String Ascii Bool Lia List.
From Stdlib Require Import DecimalString Permutation Sorted.
Import ListNotations.
Open Scope string_scope.
Open Scope list_scope.
Open Scope Z_scope.

(** ** Exceptions and outcomes *)

Inductive exn : Type :=
| AssertionError (msg : string)
| ProviderError
| ZeroDivisionError
| OverflowError
| ValueError
| IndexError.

Inductive outcome (A : Type) : Type :=
| Returned (a : A)
| Raised (e : exn)
| Running.

Arguments Returned {A} a.
Arguments Raised {A} e.
Arguments Running {A}.

Definition bind {A B : Type} (m : outcome A) (k : A -> outcome B) : outcome B :=
  match m with
  | Returned a => k a
  | Raised e => Raised e
  | Running => Running
  end.

Notation "x <- m ;; k" := (bind m (fun x => k))
  (at level 61, m at next level, right associativity).

Definition py_assert (b : bool) (msg : string) : outcome unit :=
  if b then Returned tt else Raised (AssertionError msg).

(** ** The contract descriptor ([contracts_info.json]) *)

Definition address := string.

Record lp_info : Type := {
  lp_address : address;
  ref_token : Z;
  norm_factor : Z
}.

(** The optional keys are the ones the source reads with [dict.get] or
    tests with [in]. *)
Record contract_info : Type := {
  name : string;
  enabled : bool;
  contract_address : address;
  pid : Z;
  cfg_chunk_size : option Z;
  cfg_n_blocks : option Z;
  cfg_min_amount : option Z;
  cfg_end_block : option Z;
  lp : lp_info
}.

Module TopHolders.

Definition CHUNK_SIZE : Z := 4999.
Definition N_BLOCKS : Z := CHUNK_SIZE.

(** [contract_info.get(key) or default]: a missing key gives [None], and
    [None] and [0] are both false for [or]. *)
Definition get_or (field : option Z) (default : Z) : Z :=
  match field with
  | Some v => if v =? 0 then default else v
  | None => default
  end.

Definition chunk_size (ci : contract_info) : Z :=
  get_or (cfg_chunk_size ci) CHUNK_SIZE.

Definition n_blocks (ci : contract_info) : Z :=
  get_or (cfg_n_blocks ci) N_BLOCKS.

Definition min_amount (ci : contract_info) : Z :=
  get_or (cfg_min_amount ci) 0.

(** [self.w3.eth.blockNumber if 'end_block' not in contract_info else
    contract_info['end_block']]; [block_number] is the head of the chain. *)
Definition end_block (block_number : Z) (ci : contract_info) : Z :=
  match cfg_end_block ci with
  | None => block_number
  | Some b => b
  end.

End TopHolders.

(** ** The deposit record: a dict in insertion order *)

Definition dict : Type := list (address * Z).

Fixpoint dict_get (d : dict) (k : address) : option Z :=
  match d with
  | [] => None
  | (k', v) :: d' => if String.eqb k' k then Some v else dict_get d' k
  end.

(** [k in d.keys()] *)
Definition dict_mem (d : dict) (k : address) : bool :=
  match dict_get d k with Some _ => true | None => false end.

(** [d[k] = v]: a key that is in [d] keeps its place and gets the new
    value, a new key goes last. *)
Fixpoint dict_set (d : dict) (k : address) (v : Z) : dict :=
  match d with
  | [] => [(k, v)]
  | (k', v') :: d' =>
      if String.eqb k' k then (k', v) :: d' else (k', v') :: dict_set d' k v
  end.

Definition dict_keys (d : dict) : list address := map fst d.

(** ** The log provider *)

Record entry : Type := { user : address; amount : Z }.

(** What one chunk request does.  [createFilter] is called outside the
    [try], so what it raises leaves the loop; [get_all_entries] is called
    inside it, and returns the whole list before the first entry is
    looked at. *)
Inductive reply : Type :=
| FilterRaises
| EntriesRaise
| Entries (es : list entry).

(** A provider answers the [n]-th request of a scan for the blocks
    [fromBlock .. toBlock]; it may answer the same interval differently at
    different times. *)
Definition provider : Type := nat -> Z -> Z -> reply.

Record request : Type := {
  req_from : Z;
  req_to : Z;
  req_ok : bool
}.


(** ** The scan loop of [TopHolders.main] *)

Record scan_state : Type := {
  to_block : Z;
  from_block : Z;
  cur_chunk : Z;
  all_deposits : dict;
  issued : list request
}.

Inductive iteration : Type :=
| Continue (s : scan_state)
| Break (s : scan_state)
| Raise (e : exn).

(** The body of the [for entry in ...] loop. *)
Definition record_entry (d : dict) (e : entry) : dict :=
  if dict_mem d (user e) then d else dict_set d (user e) (amount e).

Definition record_entries (d : dict) (es : list entry) : dict :=
  fold_left record_entry es d.

Section Scan.

Variable ci : contract_info.
Variable p : provider.

(** One pass through the body of [while True].  [first_block] is the
    local of that name, fixed before the loop. *)
Definition loop_body (first_block : Z) (s : scan_state) : iteration :=
  match p (List.length (issued s)) (from_block s) (to_block s) with
  | FilterRaises => Raise ProviderError
  | EntriesRaise =>
      let chunk := Z.max (cur_chunk s / 2) 1 in
      Continue {| to_block := to_block s;
                  from_block := to_block s - chunk;
                  cur_chunk := chunk;
                  all_deposits := all_deposits s;
                  issued := issued s ++
                    [{| req_from := from_block s; req_to := to_block s;
                        req_ok := false |}] |}
  | Entries es =>
      let deposits := record_entries (all_deposits s) es in
      let to' := from_block s - 1 in
      let from' := Z.max first_block (from_block s - cur_chunk s) in
      let s' := {| to_block := to';
                   from_block := from';
                   cur_chunk := TopHolders.chunk_size ci;
                   all_deposits := deposits;
                   issued := issued s ++
                     [{| req_from := from_block s; req_to := to_block s;
                         req_ok := true |}] |} in
      if from' <=? first_block then Break s' else Continue s'
  end.

Fixpoint while_true (fuel : nat) (first_block : Z) (s : scan_state)
  : outcome scan_state :=
  match fuel with
  | O => Running
  | S fuel' =>
      match loop_body first_block s with
      | Continue s' => while_true fuel' first_block s'
      | Break s' => Returned s'
      | Raise e => Raised e
      end
  end.

Definition first_block_of (block_number : Z) : Z :=
  TopHolders.end_block block_number ci - TopHolders.n_blocks ci.

Definition initial_state (block_number : Z) : scan_state :=
  let to := TopHolders.end_block block_number ci in
  {| to_block := to;
     from_block := to - TopHolders.chunk_size ci;
     cur_chunk := TopHolders.chunk_size ci;
     all_deposits := [];
     issued := [] |}.

(** Lines 140-188: from [to_block = self.end_block] to the end of the
    loop. *)
Definition scan (block_number : Z) (fuel : nat) : outcome scan_state :=
  _ <- py_assert (TopHolders.chunk_size ci <=? TopHolders.n_blocks ci)
         "n_blocks is expected to be >= chunk_size"%string ;;
  while_true fuel (first_block_of block_number) (initial_state block_number).

End Scan.

(** ** State enrichment *)

(** [l[i]] on a Python list: a negative index counts from the end. *)
Definition py_index {A : Type} (l : list A) (i : Z) : outcome A :=
  let n := Z.of_nat (List.length l) in
  let j := if i <? 0 then i + n else i in
  if (0 <=? j) && (j <? n) then
    match nth_error l (Z.to_nat j) with
    | Some x => Returned x
    | None => Raised IndexError
    end
  else Raised IndexError.

Module Enrichment.

(** [get_lp_ref_reserve], given what [getReserves().call()] returned. *)
Definition get_lp_ref_reserve (ci : contract_info) (lp_reserves : list Z)
  : outcome Z :=
  let ref := ref_token (lp ci) in
  _ <- py_assert (ref <? 2) "ref_token should be 0 or 1"%string ;;
  _ <- py_assert (Z.of_nat (List.length lp_reserves) =? 3)
         "unexpected length of getReserves"%string ;;
  py_index lp_reserves ref.

End Enrichment.

(** ** The chain, as the calls of [main] see it

    Connection set-up ([w3]) and checksum conversion of addresses are not
    modelled; the reads below are the contract calls of the source. *)
Record chain : Type := {
  blockNumber : Z;
  deposit_logs : provider;
  poolInfo : Z -> address;
  balanceOf : address -> address -> Z;
  totalSupply : address -> Z;
  getReserves : address -> list Z;
  userInfo : Z -> address -> Z * Z;
  getCode_nonempty : address -> bool
}.

(** Python floats.  The report needs true division of integers, products
    and quotients of a float by an integer, the order of floats and
    [millify] at a float; each may raise.  They are an interface here. *)
Record float_ops (F : Type) : Type := {
  int_truediv : Z -> Z -> outcome F;
  int_mul_float : Z -> F -> outcome F;
  float_mul_int : F -> Z -> outcome F;
  float_truediv : F -> Z -> outcome F;
  float_ltb : F -> F -> bool;
  float_millify : F -> outcome string
}.

Arguments int_truediv {F} _ _ _.
Arguments int_mul_float {F} _ _ _.
Arguments float_mul_int {F} _ _ _.
Arguments float_truediv {F} _ _ _.
Arguments float_ltb {F} _ _ _.
Arguments float_millify {F} _ _.

(** A row of [users_info]: address, amount_pct, balance_usd, is_contract. *)
Record holder_row (F : Type) : Type := {
  row_address : address;
  amount_pct : F;
  balance_usd : string;
  is_contract : bool
}.

Arguments row_address {F} _.
Arguments amount_pct {F} _.
Arguments balance_usd {F} _.
Arguments is_contract {F} _.

Section Report.

Context {F : Type} (fl : float_ops F).
Variable ch : chain.
Variable ci : contract_info.

(** [get_master_chef_balance] *)
Definition get_master_chef_balance : outcome (F * Z) :=
  let lp_addr := poolInfo ch (pid ci) in
  _ <- py_assert (String.eqb lp_addr (lp_address (lp ci)))
         "please update lp address and abi in contract info"%string ;;
  let master_chef_lp := balanceOf ch lp_addr (contract_address ci) in
  let total_supply_lp := totalSupply ch lp_addr in
  lp_ref_reserve <- Enrichment.get_lp_ref_reserve ci (getReserves ch lp_addr) ;;
  share <- int_truediv fl master_chef_lp total_supply_lp ;;
  scaled <- int_mul_float fl (2 * lp_ref_reserve) share ;;
  master_chef_balance_usd <- float_truediv fl scaled (norm_factor (lp ci)) ;;
  Returned (master_chef_balance_usd, master_chef_lp).

(** The loop over [list(_deposits.keys())]. *)
Fixpoint fetch_user_info (master_chef_balance_usd : F) (master_chef_lp : Z)
    (addrs : list address) (users_info : list (holder_row F))
  : outcome (list (holder_row F)) :=
  match addrs with
  | [] => Returned users_info
  | addr :: rest =>
      let '(amount, reward_debt) := userInfo ch (pid ci) addr in
      if amount =? 0 then
        fetch_user_info master_chef_balance_usd master_chef_lp rest users_info
      else
        pct <- int_truediv fl (100 * amount) master_chef_lp ;;
        num <- float_mul_int fl master_chef_balance_usd amount ;;
        usd <- float_truediv fl num master_chef_lp ;;
        text <- float_millify fl usd ;;
        fetch_user_info master_chef_balance_usd master_chef_lp rest
          (users_info ++
             [{| row_address := addr; amount_pct := pct;
                 balance_usd := text;
                 is_contract := getCode_nonempty ch addr |}])
  end.

(** [sorted(users_info, key=lambda x: x[1], reverse=True)]: a stable
    sort, largest share first. *)
Fixpoint insert_row (r : holder_row F) (l : list (holder_row F))
  : list (holder_row F) :=
  match l with
  | [] => [r]
  | r' :: l' =>
      if float_ltb fl (amount_pct r) (amount_pct r')
      then r' :: insert_row r l'
      else r :: l
  end.

Definition sorted_desc (l : list (holder_row F)) : list (holder_row F) :=
  fold_right insert_row [] l.

(** The body of the [for i in range(len(contracts_info))] loop: [None]
    when the contract is disabled, otherwise the rows handed to
    [csv_writer]. *)
Definition process_contract (fuel : nat)
  : outcome (option (list (holder_row F))) :=
  if negb (enabled ci) then Returned None
  else
    s <- scan ci (deposit_logs ch) (blockNumber ch) fuel ;;
    let _deposits := all_deposits s in
    balance <- get_master_chef_balance ;;
    users_info <- fetch_user_info (fst balance) (snd balance)
                    (dict_keys _deposits) [] ;;
    Returned (Some (sorted_desc users_info)).

End Report.

(** ** [millify] on an integer argument

    A finite double is a dyadic rational, so the arithmetic of [millify]
    is written on integers: [float(n)] and the division round to 53 bits,
    ties to even, and [{:.0f}] rounds the quotient to an integer, ties to
    even.  [math.log10] is taken as the real logarithm: [float(n)] is an
    integer, and on an integer [x >= 1] the floor of [log10(x)/3] is the
    number of times [x] can be divided by 1000 before it drops under
    1000. *)
Module Millify.

Definition millnames : list string :=
  [""; " K"; " M"; " B"; " T"]%string.

(** The integer nearest to [a/b] for [0 <= a] and [0 < b], ties to
    even. *)
Definition round_half_even (a b : Z) : Z :=
  let q := a / b in
  let r := a mod b in
  if 2 * r <? b then q
  else if b <? 2 * r then q + 1
  else if Z.even q then q else q + 1.

(** [float(n)] for an [int]: the value of the nearest double, or
    [OverflowError] once that would be 2^1024. *)
Definition float_of_int (n : Z) : outcome Z :=
  let a := Z.abs n in
  let e := Z.log2 a - 52 in
  let x := if e <=? 0 then a else round_half_even a (2 ^ e) * 2 ^ e in
  if 2 ^ 1024 <=? x then Raised OverflowError
  else Returned (Z.sgn n * x).

(** [a / b] for positive doubles [a] and [b], as mantissa and binary
    exponent of the nearest double.  The quotient lies between
    2^(E-1) and 2^(E+1) for [E = log2 a - log2 b]. *)
Definition float_div (a b : Z) : Z * Z :=
  let E0 := Z.log2 a - Z.log2 b in
  let above := if 0 <=? E0 then b * 2 ^ E0 <=? a else b <=? a * 2 ^ (- E0) in
  let E := if above then E0 else E0 - 1 in
  let e := Z.max (E - 52) (-1074) in
  let m := if 0 <=? e then round_half_even a (b * 2 ^ e)
           else round_half_even (a * 2 ^ (- e)) b in
  (m, e).

(** [int(math.floor(math.log10(x) / 3))] for an integer [x >= 1]. *)
Fixpoint thousands (fuel : nat) (x : Z) : Z :=
  match fuel with
  | O => 0
  | S fuel' => if x <? 1000 then 0 else 1 + thousands fuel' (x / 1000)
  end.

Definition floor_log10_div3 (x : Z) : Z :=
  thousands (Z.to_nat (Z.log2 x)) x.

Definition digits (z : Z) : string := NilZero.string_of_uint (N.to_uint (Z.to_N z)).

(** ['{:.0f}'.format(...)] of the double [sign * m * 2^e]. *)
Definition format_0f (negative : bool) (m e : Z) : string :=
  let i := if 0 <=? e then m * 2 ^ e else round_half_even m (2 ^ (- e)) in
  String.append (if negative then "-" else "")%string (digits i).

Definition millify (n : Z) : outcome string :=
  x <- float_of_int n ;;
  let millidx :=
    Z.max 0 (Z.min (Z.of_nat (List.length millnames) - 1)
               (if x =? 0 then 0 else floor_log10_div3 (Z.abs x))) in
  let '(m, e) :=
    if x =? 0 then (0, 0) else float_div (Z.abs x) (10 ^ (3 * millidx)) in
  Returned (String.append (format_0f (x <? 0) m e)
              (nth (Z.to_nat millidx) millnames ""%string)).

(** The integer that [format_0f] prints for the double [m * 2^e]. *)
Definition shown (m e : Z) : Z :=
  if 0 <=? e then m * 2 ^ e else round_half_even m (2 ^ (- e)).

(** *** [millify] on a float argument

    A Python float is a finite double [m * 2^e] with a sign, where
    [0 <= m < 2^53], an infinity or a NaN.  [float(n)] leaves it as it is.
    [math.floor] raises [OverflowError] on an infinity and [ValueError] on
    a NaN.  [math.log10] is again taken as the real logarithm; CPython's
    can round up to the next integer for a float just under a power of
    1000, which makes no difference from 10^15 on, where the index is
    capped. *)
Inductive pyfloat : Type :=
| Finite (negative : bool) (m e : Z)
| Infinity (negative : bool)
| NaN.

(** The integer part of [m * 2^e]. *)
Definition floor_abs (m e : Z) : Z :=
  if 0 <=? e then m * 2 ^ e else m / 2 ^ (- e).

(** [- int(math.floor(math.log10(a/b) / 3))] for [0 < a < b]: the least
    [k >= 1] with [a * 1000^k >= b]. *)
Fixpoint thousandths (fuel : nat) (a b : Z) : Z :=
  match fuel with
  | O => 1
  | S fuel' =>
      if b <=? a * 1000 then 1 else 1 + thousandths fuel' (a * 1000) b
  end.

Definition millify_float (x : pyfloat) : outcome string :=
  match x with
  | NaN => Raised ValueError
  | Infinity _ => Raised OverflowError
  | Finite negative m e =>
      let millidx :=
        Z.max 0 (Z.min (Z.of_nat (List.length millnames) - 1)
                   (if m =? 0 then 0
                    else if 1 <=? floor_abs m e
                         then floor_log10_div3 (floor_abs m e)
                         else - thousandths (Z.to_nat (- e)) m (2 ^ (- e)))) in
      let '(m', e') :=
        if m =? 0 then (0, 0)
        else float_div (if 0 <=? e then m * 2 ^ e else m)
               (if 0 <=? e then 10 ^ (3 * millidx)
                else 10 ^ (3 * millidx) * 2 ^ (- e)) in
      Returned (String.append (format_0f negative m' e')
                  (nth (Z.to_nat millidx) millnames ""%string))
  end.

End Millify.

(** ** Providers and configurations used in the statements *)

(** A provider that never fails. *)
Definition reliable (logs : Z -> Z -> list entry) : provider :=
  fun _ from_block to_block => Entries (logs from_block to_block).

(** A provider that fails exactly the requests wider than [W]. *)
Definition threshold_provider (W : Z) (logs : Z -> Z -> list entry) : provider :=
  fun _ from_block to_block =>
    if W <? to_block - from_block then EntriesRaise
    else Entries (logs from_block to_block).

(** A provider whose [get_all_entries] always raises. *)
Definition unreachable_provider : provider := fun _ _ _ => EntriesRaise.

Definition no_logs : Z -> Z -> list entry := fun _ _ => [].

Definition make_config (chunk window : option Z) (end_at : option Z)
  : contract_info :=
  {| name := "vault"; enabled := true; contract_address := "0xC0";
     pid := 0; cfg_chunk_size := chunk; cfg_n_blocks := window;
     cfg_min_amount := None; cfg_end_block := end_at;
     lp := {| lp_address := "0x1F"; ref_token := 0; norm_factor := 1 |} |}.

(** window_size=10000, chunk_size=5000, end_block=1,000,000 *)
Definition scenario_config : contract_info :=
  make_config (Some 5000) (Some 10000) (Some 1000000).

Definition set_min_amount (ci : contract_info) (m : option Z) : contract_info :=
  {| name := name ci; enabled := enabled ci;
     contract_address := contract_address ci; pid := pid ci;
     cfg_chunk_size := cfg_chunk_size ci; cfg_n_blocks := cfg_n_blocks ci;
     cfg_min_amount := m; cfg_end_block := cfg_end_block ci; lp := lp ci |}.

Definition set_n_blocks (ci : contract_info) (w : option Z) : contract_info :=
  {| name := name ci; enabled := enabled ci;
     contract_address := contract_address ci; pid := pid ci;
     cfg_chunk_size := cfg_chunk_size ci; cfg_n_blocks := w;
     cfg_min_amount := cfg_min_amount ci; cfg_end_block := cfg_end_block ci;
     lp := lp ci |}.

Definition set_ref_token (ci : contract_info) (slot : Z) : contract_info :=
  {| name := name ci; enabled := enabled ci;
     contract_address := contract_address ci; pid := pid ci;
     cfg_chunk_size := cfg_chunk_size ci; cfg_n_blocks := cfg_n_blocks ci;
     cfg_min_amount := cfg_min_amount ci; cfg_end_block := cfg_end_block ci;
     lp := {| lp_address := lp_address (lp ci); ref_token := slot;
              norm_factor := norm_factor (lp ci) |} |}.

(** ** The spec's wording of the scanner, for comparison with the code *)

(** Section 4.1, step 2b: after a success at [r] the next request [r']
    has [to = from - 1] and [from = max(floor, to - chunk_width)] with the
    chunk width set back to the configured base. *)
Definition advance_as_specified (base floor : Z) (r r' : request) : Prop :=
  req_to r' = req_from r - 1 /\
  req_from r' = Z.max floor (req_to r' - base).



(** Blocks of an interval that some request of the trace fetched. *)
Definition fetched (tr : list request) (b : Z) : bool :=
  existsb (fun r => req_ok r && (req_from r <=? b) && (b <=? req_to r)) tr.

(** Section 7: a failure at width 1 ends the scan with an error. *)
Definition escalates (ci : contract_info) (p : provider) (block_number : Z)
  : Prop :=
  exists fuel e, scan ci p block_number fuel = Raised e.

(** Section 4.1, edge cases: an empty record and no request at all. *)
Definition returns_empty_without_request (ci : contract_info) (p : provider)
    (block_number : Z) : Prop :=
  exists fuel s, scan ci p block_number fuel = Returned s /\
                 all_deposits s = [] /\ issued s = [].

(** One pass of the loop that does not raise, and any number of them. *)
Definition pass (ci : contract_info) (p : provider) (first_block : Z)
    (s s' : scan_state) : Prop :=
  loop_body ci p first_block s = Continue s' \/
  loop_body ci p first_block s = Break s'.

Inductive later (ci : contract_info) (p : provider) (first_block : Z)
  : scan_state -> scan_state -> Prop :=
| later_now s : later ci p first_block s s
| later_pass s s' s'' :
    pass ci p first_block s s' -> later ci p first_block s' s'' ->
    later ci p first_block s s''.

(** The amount of the first entry of a chunk for an address. *)
Fixpoint first_amount (a : address) (es : list entry) : option Z :=
  match es with
  | [] => None
  | e :: es' => if String.eqb (user e) a then Some (amount e)
                else first_amount a es'
  end.

(** chunk_size=8, window=12, end_block=1000: the floor is 988. *)
Definition narrow_config : contract_info :=
  make_config (Some 8) (Some 12) (Some 1000).

(** The state of the scan of [narrow_config] after two halvings. *)
Definition shrunk_state : scan_state :=
  {| to_block := 1000; from_block := 998; cur_chunk := 2;
     all_deposits := [];
     issued := [ {| req_from := 992; req_to := 1000; req_ok := false |};
                 {| req_from := 996; req_to := 1000; req_ok := false |} ] |}.

(** chunk_size=1, window=10, end_block=1000: every request has width 1. *)
Definition unit_config : contract_info :=
  make_config (Some 1) (Some 10) (Some 1000).

(** A provider whose first answer is an error and that serves (empty)
    logs from then on. *)
Definition fails_once : provider :=
  fun n _ _ => match n with O => EntriesRaise | S _ => Entries [] end.

(** window size 0, everything else left to the defaults. *)
Definition zero_window_config : contract_info :=
  make_config None (Some 0) (Some 1000000).

Definition one_deposit : Z -> Z -> list entry :=
  fun _ _ => [{| user := "0xA1"; amount := 5 |}].

(** chunk_size=8, window=20, end_block=1000: the floor is 980. *)
Definition wide_config : contract_info :=
  make_config (Some 8) (Some 20) (Some 1000).

(** chunk_size=10, window=10, no end block: one chunk below the head. *)
Definition sample_config : contract_info :=
  make_config (Some 10) (Some 10) None.

(** A stand-in for floats that lets the report run on examples: integers,
    quotients rounded down. *)
Definition integer_floats : float_ops Z :=
  {| int_truediv := fun a b =>
       if b =? 0 then Raised ZeroDivisionError else Returned (a / b);
     int_mul_float := fun a x => Returned (a * x);
     float_mul_int := fun x a => Returned (x * a);
     float_truediv := fun x b =>
       if b =? 0 then Raised ZeroDivisionError else Returned (x / b);
     float_ltb := Z.ltb;
     float_millify := Millify.millify |}.

(** A chain with three deposits of two users, of whom "0xA1" has since
    withdrawn everything. *)
Definition sample_chain : chain :=
  {| blockNumber := 1000;
     deposit_logs := reliable (fun _ _ =>
       [ {| user := "0xA1"; amount := 5 |};
         {| user := "0xB2"; amount := 7 |};
         {| user := "0xA1"; amount := 9 |} ]);
     poolInfo := fun _ => "0x1F";
     balanceOf := fun _ _ => 1000;
     totalSupply := fun _ => 4000;
     getReserves := fun _ => [8000; 6000; 1700000000];
     userInfo := fun _ a => if String.eqb a "0xA1" then (0, 0) else (250, 3);
     getCode_nonempty := fun _ => false |}.

(** chunk_size=4, window=12, end_block=1000: two chunks are fetched, and
    the logs give "0xA1" the amount 5 in the upper chunk and 9 below. *)
Definition two_chunk_config : contract_info :=
  make_config (Some 4) (Some 12) (Some 1000).

Definition conflicting_logs : Z -> Z -> list entry :=
  fun _ to_block =>
    if to_block =? 1000 then [{| user := "0xA1"; amount := 5 |}]
    else [{| user := "0xA1"; amount := 9 |}].

(** ** Invariants of the scan against a threshold provider *)




(** ** The run over all contracts and the report files *)

(** The files written so far, newest first: [open(path, 'w')] replaces
    what the path held, so the first binding of a name is its content.
    The path is derived from [contract_info['name']] alone. *)
Definition files (F : Type) : Type :=
  list (string * (list string * list (holder_row F))).


(** [csv_writer]: a row of [users_info] is a tuple of four fields, which
    the assertion compares with the number of column names when there is
    a first row. *)
Definition csv_writer {F : Type} (ci : contract_info)
    (row_names : list string) (data : list (holder_row F)) (fs : files F)
  : outcome (files F) :=
  _ <- py_assert (match data with
                  | [] => true
                  | _ :: _ => Nat.eqb (List.length row_names) 4
                  end) "" ;;
  Returned ((name ci, (row_names, data)) :: fs).

Definition column_names : list string :=
  ["address"; "amount_pct"; "balance_usd"; "is_contract"].

(** [main]: the contracts are processed in order, each on the chain its
    descriptor names ([chain_of]); nothing catches what one of them
    raises. *)
Fixpoint main {F : Type} (fl : float_ops F) (chain_of : contract_info -> chain)
    (fuel : nat) (contracts_info : list contract_info) (fs : files F)
  : files F * outcome unit :=
  match contracts_info with
  | [] => (fs, Returned tt)
  | ci :: rest =>
      match process_contract fl (chain_of ci) ci fuel with
      | Returned None => main fl chain_of fuel rest fs
      | Returned (Some users_info) =>
          match csv_writer ci column_names users_info fs with
          | Returned fs' => main fl chain_of fuel rest fs'
          | Raised e => (fs, Raised e)
          | Running => (fs, Running)
          end
      | Raised e => (fs, Raised e)
      | Running => (fs, Running)
      end
  end.

(** ** Bookkeeping on traces *)

(** How many successful requests of a trace contain block [b]. *)
Definition fetch_count (tr : list request) (b : Z) : nat :=
  List.length
    (filter (fun r => req_ok r && (req_from r <=? b) && (b <=? req_to r)) tr).

(** Address [a] is the user of an entry that the provider served in
    answer to a request of the trace. *)
Definition served (p : provider) (tr : list request) (a : address) : Prop :=
  exists i r es,
    nth_error tr i = Some r /\
    p i (req_from r) (req_to r) = Entries es /\
    In a (map user es).

(** A negative chunk size: chunk_size=-5, window and end block default. *)
Definition negative_chunk_config : contract_info :=
  make_config (Some (-5)) None (Some 1000).

(** The descriptor with every optional key absent. *)
Definition default_config : contract_info := make_config None None None.

(** chunk_size=5, window=15, end_block=1000: three chunks. *)
Definition three_chunk_config : contract_info :=
  make_config (Some 5) (Some 15) (Some 1000).

Definition renamed (ci : contract_info) (n : string) : contract_info :=
  {| name := n; enabled := enabled ci;
     contract_address := contract_address ci; pid := pid ci;
     cfg_chunk_size := cfg_chunk_size ci; cfg_n_blocks := cfg_n_blocks ci;
     cfg_min_amount := cfg_min_amount ci; cfg_end_block := cfg_end_block ci;
     lp := lp ci |}.

Definition disabled (ci : contract_info) : contract_info :=
  {| name := name ci; enabled := false;
     contract_address := contract_address ci; pid := pid ci;
     cfg_chunk_size := cfg_chunk_size ci; cfg_n_blocks := cfg_n_blocks ci;
     cfg_min_amount := cfg_min_amount ci; cfg_end_block := cfg_end_block ci;
     lp := lp ci |}.

(** A chain whose pool has moved to another LP token: [poolInfo] no
    longer returns the configured address. *)
Definition stale_chain : chain :=
  {| blockNumber := blockNumber sample_chain;
     deposit_logs := deposit_logs sample_chain;
     poolInfo := fun _ => "0x2E";
     balanceOf := balanceOf sample_chain;
     totalSupply := totalSupply sample_chain;
     getReserves := getReserves sample_chain;
     userInfo := userInfo sample_chain;
     getCode_nonempty := getCode_nonempty sample_chain |}.

(** The blocks fetched so far are those above the current upper bound and
    up to [last], each once. *)
Definition fetched_above (last : Z) (s : scan_state) : Prop :=
  to_block s <= last /\
  forall b, fetch_count (issued s) b =
            if (to_block s <? b) && (b <=? last) then 1%nat else 0%nat.

(** ** Bookkeeping on reports *)

(** The current stake of an address is not zero. *)
Definition has_stake (ch : chain) (ci : contract_info) (a : address) : bool :=
  negb (fst (userInfo ch (pid ci) a) =? 0).

(** No row is followed by a row with a larger share. *)
Definition descending {F : Type} (fl : float_ops F) (l : list (holder_row F))
  : Prop :=
  Sorted (fun r r' => float_ltb fl (amount_pct r) (amount_pct r') = false) l.

(** The share of a row is neither smaller nor larger than [k]. *)
Definition tied {F : Type} (fl : float_ops F) (k : F) (r : holder_row F)
  : bool :=
  negb (float_ltb fl (amount_pct r) k) && negb (float_ltb fl k (amount_pct r)).

(** Three rows with shares 5, 50 and 5. *)
Definition sample_rows : list (holder_row Z) :=
  [ {| row_address := "0xA1"; amount_pct := 5; balance_usd := "5";
       is_contract := false |};
    {| row_address := "0xB2"; amount_pct := 50; balance_usd := "50";
       is_contract := true |};
    {| row_address := "0xC3"; amount_pct := 5; balance_usd := "5";
       is_contract := false |} ].

(** ** Checking [millify] on a range of arguments *)

Definition returns_string (o : outcome string) (s : string) : bool :=
  match o with
  | Returned t => String.eqb t s
  | _ => false
  end.

(** [f] holds of 0, 1, ..., n - 1. *)
Definition holds_below (n : nat) (f : Z -> bool) : bool :=
  forallb f (map Z.of_nat (seq 0 n)).

(** [millify] of a negative argument in terms of its absolute value. *)
Definition negated (o : outcome string) : outcome string :=
  match o with
  | Returned s => Returned (String.append "-" s)
  | Raised e => Raised e
  | Running => Running
  end.

(** * Properties *)

(** ** The loop always issues a request before it can stop *)

Lemma loop_body_extends_issued ci p first s s' :
  pass ci p first s s' ->
  exists r, issued s' = issued s ++ [r] /\
            req_from r = from_block s /\ req_to r = to_block s.
Proof.
  unfold pass, loop_body.
  destruct (p (List.length (issued s)) (from_block s) (to_block s)) as [| |es].
  - intros [H|H]; discriminate.
  - intros [H|H]; [|discriminate].
    injection H as <-. eexists; simpl; eauto.
  - destruct (Z.max first (from_block s - cur_chunk s) <=? first);
      intros [H|H]; try discriminate; injection H as <-;
      eexists; simpl; eauto.
Qed.

Lemma later_issued_grows ci p first s s' :
  later ci p first s s' -> exists tr, issued s' = issued s ++ tr.
Proof.
  induction 1 as [s|s s1 s2 Hp _ [tr IH]].
  - exists []. now rewrite app_nil_r.
  - destruct (loop_body_extends_issued _ _ _ _ _ Hp) as [r [Hr _]].
    exists (r :: tr). rewrite IH, Hr, <- app_assoc. reflexivity.
Qed.

Lemma while_true_later ci p fuel first s s' :
  while_true ci p fuel first s = Returned s' ->
  exists s1, later ci p first s s1 /\ loop_body ci p first s1 = Break s'.
Proof.
  revert s. induction fuel as [|fuel IH]; intros s; simpl; [discriminate|].
  destruct (loop_body ci p first s) as [s1|s1|e] eqn:Hb; try discriminate.
  - intros H. destruct (IH _ H) as [s2 [Hl Hbr]].
    exists s2. split; [|exact Hbr].
    eapply later_pass; [left; exact Hb|exact Hl].
  - intros H. injection H as <-. exists s. split; [constructor|exact Hb].
Qed.

Lemma scan_inv ci p bn fuel s :
  scan ci p bn fuel = Returned s ->
  TopHolders.chunk_size ci <= TopHolders.n_blocks ci /\
  while_true ci p fuel (first_block_of ci bn) (initial_state ci bn) = Returned s.
Proof.
  unfold scan, py_assert.
  destruct (TopHolders.chunk_size ci <=? TopHolders.n_blocks ci) eqn:Hle;
    simpl; [|discriminate].
  intros H. split; [now apply Z.leb_le|exact H].
Qed.

Lemma scan_issues_a_request ci p bn fuel s :
  scan ci p bn fuel = Returned s -> issued s <> [].
Proof.
  intros H. apply scan_inv in H as [_ H].
  apply while_true_later in H as [s1 [Hl Hb]].
  destruct (loop_body_extends_issued ci p _ s1 s (or_intror Hb)) as [r [Hr _]].
  rewrite Hr. intros Habs. now apply app_eq_nil in Habs as [_ ?].
Qed.

(** ** C1: the scenario window=10000, chunk=5000, end=1,000,000 *)

(** C1 (evaluation of the code on the scenario).  With a provider that
    never fails, whatever logs it serves, the scan of the scenario
    configuration returns after ONE request, for blocks 995000..1000000:
    the advance computes the lower chunk 990000..994999, finds its lower
    bound at the floor and leaves the loop before requesting it.  Block
    990001 is never fetched. *)
Theorem scenario_scan_issues_one_request :
  forall (logs : Z -> Z -> list entry) (bn : Z) (fuel : nat),
  exists s,
    scan scenario_config (reliable logs) bn (S fuel) = Returned s /\
    issued s = [{| req_from := 995000; req_to := 1000000; req_ok := true |}] /\
    to_block s = 994999 /\ from_block s = 990000 /\
    fetched (issued s) 990001 = false.
Proof.
  intros logs bn fuel. eexists. split; [reflexivity|].
  simpl. repeat split; reflexivity.
Qed.

(** ** C2: the advance after a successful request *)

(** C2 (as stated, refuted).  Scanning chunk_size=8, window=12,
    end_block=1000 against a provider that fails requests wider than 2:
    after two halvings the request 998..1000 succeeds, and the next
    request is 996..997, whose lower bound is the old lower bound minus the
    shrunk width 2; the stated rule [max(floor, to - base)] would give
    989. *)
Lemma advance_as_specified_fails :
  let r := {| req_from := 998; req_to := 1000; req_ok := true |} in
  let r' := {| req_from := 996; req_to := 997; req_ok := true |} in
  (exists s,
     scan narrow_config (threshold_provider 2 no_logs) 0 4 = Returned s /\
     issued s = [ {| req_from := 992; req_to := 1000; req_ok := false |};
                  {| req_from := 996; req_to := 1000; req_ok := false |};
                  r; r' ]) /\
  ~ advance_as_specified (TopHolders.chunk_size narrow_config)
      (first_block_of narrow_config 0) r r'.
Proof.
  simpl. split.
  - eexists. split; reflexivity.
  - unfold advance_as_specified. simpl. intros [_ H]. discriminate H.
Qed.

(** C2 (amended).  After every successful chunk request the scanner sets
    [to = from - 1], computes the next lower bound as
    [max(floor, from - chunk_width)] from the lower bound of the chunk just
    fetched and the chunk width in effect for that request (the configured
    base, or what the failures before this success left of it), and only
    after that sets the chunk width back to the configured base: the lower
    bound of the next chunk is computed with the width from before the
    reset. *)
Theorem advance_after_success ci p first s es :
  p (List.length (issued s)) (from_block s) (to_block s) = Entries es ->
  exists s',
    pass ci p first s s' /\
    to_block s' = from_block s - 1 /\
    from_block s' = Z.max first (from_block s - cur_chunk s) /\
    cur_chunk s' = TopHolders.chunk_size ci.
Proof.
  intros Hp. unfold pass, loop_body. rewrite Hp.
  destruct (Z.max first (from_block s - cur_chunk s) <=? first) eqn:Hle.
  - eexists. split; [right; reflexivity|]. simpl. intuition.
  - eexists. split; [left; reflexivity|]. simpl. intuition.
Qed.

Lemma advance_after_success_witness :
  threshold_provider 2 no_logs (List.length (issued shrunk_state))
    (from_block shrunk_state) (to_block shrunk_state) = Entries [] /\
  exists s',
    pass narrow_config (threshold_provider 2 no_logs) 988 shrunk_state s' /\
    to_block s' = 998 - 1 /\
    from_block s' = Z.max 988 (998 - 2) /\
    cur_chunk s' = TopHolders.chunk_size narrow_config.
Proof.
  split; [reflexivity|].
  apply (advance_after_success narrow_config (threshold_provider 2 no_logs)
           988 shrunk_state []).
  reflexivity.
Defined.

(** ** C4: provider errors during the scan *)

Lemma while_true_result_unique ci p first fuel fuel' s a e :
  while_true ci p fuel first s = Returned a ->
  while_true ci p fuel' first s = Raised e -> False.
Proof.
  revert fuel' s. induction fuel as [|fuel IH]; intros fuel' s; simpl;
    [discriminate|].
  destruct fuel' as [|fuel']; simpl; [discriminate|].
  destruct (loop_body ci p first s) as [s1|s1|e1]; try discriminate.
  apply IH.
Qed.

(** A provider that keeps failing keeps the loop running: no amount of
    fuel makes the scan return or raise. *)
Lemma unreachable_provider_never_returns ci first fuel s :
  while_true ci unreachable_provider fuel first s = Running.
Proof.
  revert s. induction fuel as [|fuel IH]; intros s; simpl; [reflexivity|].
  apply IH.
Qed.

(** C4 (as stated, refuted).  With chunk_size=1 the first request, for
    blocks 999..1000, has width 1.  The provider fails it once; the scanner
    issues the same request again, it succeeds, and the scan goes on and
    returns: no provider failure ends this scan with an error. *)
Lemma width_one_failure_is_retried :
  (exists s,
     scan unit_config fails_once 0 12 = Returned s /\
     firstn 2 (issued s) =
       [ {| req_from := 999; req_to := 1000; req_ok := false |};
         {| req_from := 999; req_to := 1000; req_ok := true |} ]) /\
  ~ escalates unit_config fails_once 0.
Proof.
  split.
  - eexists. split; vm_compute; reflexivity.
  - intros [fuel [e H]].
    assert (Hr : exists s, scan unit_config fails_once 0 12 = Returned s)
      by (eexists; vm_compute; reflexivity).
    destruct Hr as [s Hs].
    apply scan_inv in Hs as [_ Hs].
    change (scan unit_config fails_once 0 fuel)
      with (while_true unit_config fails_once fuel
              (first_block_of unit_config 0) (initial_state unit_config 0))
      in H.
    exact (while_true_result_unique _ _ _ _ _ _ _ _ Hs H).
Qed.

(** C4 (amended).  An error raised while the entries of a chunk are
    fetched is never surfaced to the caller, at width 1 no more than at any
    other chunk width: the pass ends in [continue] with the record
    untouched, the upper bound unchanged, the chunk width set to
    [max(width // 2, 1)] and the lower bound set to the upper bound minus
    that width.  When the chunk width is 1 at the failure, it stays 1 and
    the next request is for the blocks [to - 1 .. to]; that is the failed
    request again when the failed request was for [to - 1 .. to]. *)
Theorem entries_failure_is_retried ci p first s :
  p (List.length (issued s)) (from_block s) (to_block s) = EntriesRaise ->
  exists s',
    loop_body ci p first s = Continue s' /\
    all_deposits s' = all_deposits s /\
    to_block s' = to_block s /\
    cur_chunk s' = Z.max (cur_chunk s / 2) 1 /\
    from_block s' = to_block s - cur_chunk s' /\
    (cur_chunk s = 1 ->
     cur_chunk s' = 1 /\ from_block s' = to_block s - 1) /\
    (cur_chunk s = 1 -> from_block s = to_block s - 1 ->
     from_block s' = from_block s /\ to_block s' = to_block s).
Proof.
  intros Hp. unfold loop_body. rewrite Hp.
  eexists. split; [reflexivity|]. simpl.
  split; [reflexivity|]. split; [reflexivity|].
  split; [reflexivity|]. split; [reflexivity|]. split.
  - intros Hc. rewrite Hc. split; reflexivity.
  - intros Hc Hf. rewrite Hc, Hf. split; reflexivity.
Qed.

Lemma entries_failure_is_retried_witness :
  fails_once (List.length (issued (initial_state unit_config 0)))
    (from_block (initial_state unit_config 0))
    (to_block (initial_state unit_config 0)) = EntriesRaise /\
  cur_chunk (initial_state unit_config 0) = 1 /\
  from_block (initial_state unit_config 0)
    = to_block (initial_state unit_config 0) - 1 /\
  exists s',
    loop_body unit_config fails_once 990 (initial_state unit_config 0)
      = Continue s' /\
    all_deposits s' = [] /\
    to_block s' = 1000 /\
    cur_chunk s' = Z.max (1 / 2) 1 /\
    from_block s' = 1000 - cur_chunk s' /\
    (1 = 1 -> cur_chunk s' = 1 /\ from_block s' = 1000 - 1) /\
    (1 = 1 -> 999 = 1000 - 1 -> from_block s' = 999 /\ to_block s' = 1000).
Proof.
  split; [reflexivity|]. split; [reflexivity|]. split; [reflexivity|].
  apply (entries_failure_is_retried unit_config fails_once 990
           (initial_state unit_config 0)).
  reflexivity.
Defined.

(** ** C6: a window size of zero *)

(** C6 (as stated, refuted).  With [n_blocks] configured as 0 and a
    provider that serves one deposit, the scan requests blocks
    995001..1000000 and returns a record with that deposit. *)
Lemma zero_window_issues_a_request :
  (exists s,
     scan zero_window_config (reliable one_deposit) 0 1 = Returned s /\
     issued s = [{| req_from := 995001; req_to := 1000000; req_ok := true |}] /\
     all_deposits s = [("0xA1", 5)]) /\
  ~ returns_empty_without_request zero_window_config (reliable one_deposit) 0.
Proof.
  split.
  - eexists. repeat split; reflexivity.
  - intros [fuel [s [Hs [_ Hi]]]].
    exact (scan_issues_a_request _ _ _ _ _ Hs Hi).
Qed.

(** C6 (amended).  A configured window size of zero counts as absent:
    the scanner uses the default window of 4999 blocks, behaves exactly as
    if [n_blocks] were not configured, and whenever the scan returns it has
    issued at least one chunk request. *)
Theorem zero_window_means_default ci p bn fuel :
  cfg_n_blocks ci = Some 0 ->
  TopHolders.n_blocks ci = 4999 /\
  scan ci p bn fuel = scan (set_n_blocks ci None) p bn fuel /\
  forall s, scan ci p bn fuel = Returned s -> issued s <> [].
Proof.
  intros H0. split; [|split].
  - unfold TopHolders.n_blocks. rewrite H0. reflexivity.
  - destruct ci; simpl in H0; subst. reflexivity.
  - intros s. apply scan_issues_a_request.
Qed.

Lemma zero_window_means_default_witness :
  cfg_n_blocks zero_window_config = Some 0 /\
  TopHolders.n_blocks zero_window_config = 4999 /\
  scan zero_window_config (reliable one_deposit) 0 1
    = scan (set_n_blocks zero_window_config None) (reliable one_deposit) 0 1 /\
  forall s, scan zero_window_config (reliable one_deposit) 0 1 = Returned s ->
            issued s <> [].
Proof.
  split; [reflexivity|].
  apply (zero_window_means_default zero_window_config (reliable one_deposit)
           0 1%nat).
  reflexivity.
Defined.

(** ** C9: the reference reserve slot *)

(** Slots 0 and 1 select that reserve of a three-element result. *)
Lemma reserve_slot_selected ci r0 r1 ts :
  (ref_token (lp ci) = 0 ->
   Enrichment.get_lp_ref_reserve ci [r0; r1; ts] = Returned r0) /\
  (ref_token (lp ci) = 1 ->
   Enrichment.get_lp_ref_reserve ci [r0; r1; ts] = Returned r1).
Proof.
  unfold Enrichment.get_lp_ref_reserve.
  split; intros ->; reflexivity.
Qed.

(** A slot of 2 or more fails the assertion. *)
Lemma reserve_slot_too_large ci reserves :
  2 <= ref_token (lp ci) ->
  Enrichment.get_lp_ref_reserve ci reserves
    = Raised (AssertionError "ref_token should be 0 or 1").
Proof.
  intros H. unfold Enrichment.get_lp_ref_reserve, py_assert.
  destruct (ref_token (lp ci) <? 2) eqn:Hlt; [|reflexivity].
  apply Z.ltb_lt in Hlt. lia.
Qed.

(** C9 (evaluation of the code at slot -1).  The assertion only tests
    [ref_token < 2], so a configured slot of -1 passes it and the function
    returns the last element of what [getReserves] returned, the block
    timestamp, instead of failing. *)
Theorem negative_reserve_slot_is_accepted :
  forall (ci : contract_info) (reserve0 reserve1 timestamp : Z),
    Enrichment.get_lp_ref_reserve (set_ref_token ci (-1))
      [reserve0; reserve1; timestamp] = Returned timestamp.
Proof.
  intros. reflexivity.
Qed.

(** ** C10: the minimum-amount threshold *)

(** C10.  Two contract descriptors that differ at most in their
    [min_amount] field are scanned alike against every provider and give
    the same report on every chain: the scan, the filtering and the ranked
    output do not consult the field. *)
Theorem min_amount_is_never_consulted
    {F : Type} (fl : float_ops F) (ch : chain) (p : provider) (bn : Z)
    (fuel : nat) (ci ci' : contract_info) :
  set_min_amount ci None = set_min_amount ci' None ->
  scan ci p bn fuel = scan ci' p bn fuel /\
  process_contract fl ch ci fuel = process_contract fl ch ci' fuel.
Proof.
  intros H.
  assert (Hs : forall c, scan c p bn fuel
                         = scan (set_min_amount c None) p bn fuel)
    by (intros c; destruct c; reflexivity).
  assert (Hp : forall c, process_contract fl ch c fuel
                         = process_contract fl ch (set_min_amount c None) fuel)
    by (intros c; destruct c; reflexivity).
  rewrite (Hs ci), (Hs ci'), (Hp ci), (Hp ci'), H. split; reflexivity.
Qed.

Lemma min_amount_is_never_consulted_witness :
  set_min_amount (set_min_amount sample_config (Some 1000)) None
    = set_min_amount sample_config None /\
  scan (set_min_amount sample_config (Some 1000))
       (deposit_logs sample_chain) 1000 1
    = scan sample_config (deposit_logs sample_chain) 1000 1 /\
  process_contract integer_floats sample_chain
      (set_min_amount sample_config (Some 1000)) 1
    = process_contract integer_floats sample_chain sample_config 1.
Proof.
  split; [reflexivity|].
  apply (min_amount_is_never_consulted integer_floats sample_chain
           (deposit_logs sample_chain) 1000 1%nat
           (set_min_amount sample_config (Some 1000)) sample_config).
  reflexivity.
Defined.

(** ** C5: first write wins *)

Lemma dict_get_app d d' k :
  dict_get (d ++ d') k =
  match dict_get d k with Some v => Some v | None => dict_get d' k end.
Proof.
  induction d as [|[k' v'] d IH]; simpl; [reflexivity|].
  destruct (String.eqb k' k); [reflexivity|exact IH].
Qed.

Lemma dict_set_absent d k v :
  dict_get d k = None -> dict_set d k v = d ++ [(k, v)].
Proof.
  induction d as [|[k' v'] d IH]; simpl; [reflexivity|].
  destruct (String.eqb k' k); [discriminate|].
  intros H. now rewrite IH.
Qed.

(** Recording an entry of a user who is not in the record puts the user
    last, with the amount of the entry. *)
Lemma record_entry_absent d e :
  dict_mem d (user e) = false ->
  record_entry d e = d ++ [(user e, amount e)].
Proof.
  unfold record_entry, dict_mem. intros H.
  destruct (dict_get d (user e)) eqn:Hg; [discriminate|].
  now apply dict_set_absent.
Qed.

Lemma record_entry_keeps d e a v :
  dict_get d a = Some v -> dict_get (record_entry d e) a = Some v.
Proof.
  intros H. destruct (dict_mem d (user e)) eqn:Hm.
  - unfold record_entry. rewrite Hm. exact H.
  - rewrite record_entry_absent by exact Hm.
    rewrite dict_get_app, H. reflexivity.
Qed.

Lemma record_entries_keeps es d a v :
  dict_get d a = Some v -> dict_get (record_entries d es) a = Some v.
Proof.
  revert d. induction es as [|e es IH]; intros d H; simpl; [exact H|].
  apply IH. now apply record_entry_keeps.
Qed.

Lemma record_entries_first es d a v :
  dict_get d a = None -> first_amount a es = Some v ->
  dict_get (record_entries d es) a = Some v.
Proof.
  revert d. induction es as [|e es IH]; intros d Hd Hf; simpl in *;
    [discriminate|].
  destruct (String.eqb (user e) a) eqn:Heq.
  - apply String.eqb_eq in Heq. injection Hf as <-.
    apply record_entries_keeps.
    rewrite record_entry_absent
      by (unfold dict_mem; rewrite Heq, Hd; reflexivity).
    rewrite dict_get_app, Hd. simpl. rewrite Heq, String.eqb_refl.
    reflexivity.
  - apply IH; [|exact Hf].
    destruct (dict_mem d (user e)) eqn:Hm.
    + unfold record_entry. rewrite Hm. exact Hd.
    + rewrite record_entry_absent by exact Hm.
      rewrite dict_get_app, Hd. simpl. rewrite Heq. reflexivity.
Qed.

Lemma pass_keeps ci p first s s' a v :
  pass ci p first s s' ->
  dict_get (all_deposits s) a = Some v ->
  dict_get (all_deposits s') a = Some v.
Proof.
  unfold pass, loop_body.
  destruct (p (List.length (issued s)) (from_block s) (to_block s)) as [| |es].
  - intros [H|H]; discriminate.
  - intros [H|H]; [|discriminate]. injection H as <-. simpl. auto.
  - destruct (Z.max first (from_block s - cur_chunk s) <=? first);
      intros [H|H]; try discriminate; injection H as <-; simpl;
      apply record_entries_keeps.
Qed.

Lemma later_keeps ci p first s s' a v :
  later ci p first s s' ->
  dict_get (all_deposits s) a = Some v ->
  dict_get (all_deposits s') a = Some v.
Proof.
  induction 1 as [s|s s1 s2 Hp _ IH]; [auto|].
  intros H. apply IH. eapply pass_keeps; eauto.
Qed.

Lemma pass_records ci p first s s' es :
  p (List.length (issued s)) (from_block s) (to_block s) = Entries es ->
  pass ci p first s s' ->
  all_deposits s' = record_entries (all_deposits s) es.
Proof.
  unfold pass, loop_body. intros ->.
  destruct (Z.max first (from_block s - cur_chunk s) <=? first);
    intros [H|H]; try discriminate; injection H as <-; reflexivity.
Qed.

(** C5.  In one scan, against any provider: (i) an amount recorded for an
    address at some point of the scan is the amount recorded for it at
    every later point, whatever the chunks fetched or failed in between
    contain; (ii) when a chunk is the first to mention an address, the
    amount of its first entry for that address is what the record holds at
    every later point, even if later chunks carry other amounts for it. *)
Theorem first_write_wins ci p first a :
  (forall s s' v,
     later ci p first s s' ->
     dict_get (all_deposits s) a = Some v ->
     dict_get (all_deposits s') a = Some v) /\
  (forall s s1 s2 es v,
     p (List.length (issued s)) (from_block s) (to_block s) = Entries es ->
     pass ci p first s s1 ->
     dict_get (all_deposits s) a = None ->
     first_amount a es = Some v ->
     later ci p first s1 s2 ->
     dict_get (all_deposits s2) a = Some v).
Proof.
  split.
  - intros s s' v. apply later_keeps.
  - intros s s1 s2 es v Hp Hpass Hnone Hfirst Hlater.
    eapply later_keeps; [exact Hlater|].
    rewrite (pass_records _ _ _ _ _ _ Hp Hpass).
    now apply record_entries_first.
Qed.

Lemma first_write_wins_witness :
  exists s2,
    scan two_chunk_config (reliable conflicting_logs) 0 2 = Returned s2 /\
    List.length (issued s2) = 2%nat /\
    dict_get (all_deposits s2) "0xA1" = Some 5.
Proof.
  eexists. split; [vm_compute; reflexivity|]. split; [reflexivity|].
  eapply (proj2 (first_write_wins two_chunk_config (reliable conflicting_logs)
                   988 "0xA1") (initial_state two_chunk_config 0)).
  - reflexivity.
  - left. reflexivity.
  - reflexivity.
  - reflexivity.
  - eapply later_pass; [right; reflexivity|apply later_now].
Defined.

(** ** C7: holders that have withdrawn everything *)

Section ReportFacts.

Context {F : Type} (fl : float_ops F).
Variable ch : chain.
Variable ci : contract_info.

Lemma fetch_user_info_rows usd lp_total addrs acc rows :
  fetch_user_info fl ch ci usd lp_total addrs acc = Returned rows ->
  forall r, In r rows ->
    In r acc \/
    (In (row_address r) addrs /\
     fst (userInfo ch (pid ci) (row_address r)) <> 0).
Proof.
  revert acc. induction addrs as [|addr rest IH]; intros acc;
    cbn [fetch_user_info].
  - intros H r Hr. injection H as <-. now left.
  - destruct (userInfo ch (pid ci) addr) as [amt debt] eqn:Hu.
    destruct (amt =? 0) eqn:Hz.
    + intros H r Hr. destruct (IH _ H r Hr) as [?|[? ?]]; [now left|].
      right. split; [now right|assumption].
    + destruct (int_truediv fl (100 * amt) lp_total) as [pct| |];
        cbn [bind]; try discriminate.
      destruct (float_mul_int fl usd amt) as [num| |]; cbn [bind];
        try discriminate.
      destruct (float_truediv fl num lp_total) as [v| |]; cbn [bind];
        try discriminate.
      destruct (float_millify fl v) as [text| |]; cbn [bind];
        try discriminate.
      intros H r Hr. destruct (IH _ H r Hr) as [Hacc|[? ?]].
      * apply in_app_or in Hacc as [?|[<-|[]]]; [now left|].
        right. simpl. split; [now left|].
        rewrite Hu. simpl. now apply Z.eqb_neq.
      * right. split; [now right|assumption].
Qed.

Lemma insert_row_in r x l :
  In r (insert_row fl x l) <-> r = x \/ In r l.
Proof.
  induction l as [|y l IH]; simpl.
  - intuition.
  - destruct (float_ltb fl (amount_pct x) (amount_pct y)); simpl.
    + rewrite IH. intuition.
    + intuition.
Qed.

Lemma sorted_desc_in r l : In r (sorted_desc fl l) <-> In r l.
Proof.
  induction l as [|x l IH]; simpl; [reflexivity|].
  rewrite insert_row_in, IH. intuition.
Qed.

(** C7.  Whenever a contract is processed to the end, no row of the
    ranked output belongs to an address whose current staked amount, as
    [userInfo] returns it, is zero; the deposits recorded for it in the
    scan play no part. *)
Theorem zero_balance_is_filtered fuel rows addr :
  process_contract fl ch ci fuel = Returned (Some rows) ->
  fst (userInfo ch (pid ci) addr) = 0 ->
  ~ In addr (map row_address rows).
Proof.
  unfold process_contract.
  destruct (negb (enabled ci)); [discriminate|].
  destruct (scan ci (deposit_logs ch) (blockNumber ch) fuel) as [s| |];
    simpl; try discriminate.
  destruct (get_master_chef_balance fl ch ci) as [[usd lp_total]| |];
    simpl; try discriminate.
  destruct (fetch_user_info fl ch ci usd lp_total
              (dict_keys (all_deposits s)) []) as [info| |] eqn:Hf;
    simpl; try discriminate.
  intros H Hz Hin. injection H as <-.
  apply in_map_iff in Hin as [r [<- Hr]].
  apply (proj1 (sorted_desc_in r info)) in Hr.
  destruct (fetch_user_info_rows _ _ _ _ _ Hf r Hr) as [[]|[_ Hnz]].
  contradiction.
Qed.

End ReportFacts.

Lemma zero_balance_is_filtered_witness :
  process_contract integer_floats sample_chain sample_config 1
    = Returned (Some [{| row_address := "0xB2"; amount_pct := 25;
                         balance_usd := "0"; is_contract := false |}]) /\
  dict_get [("0xA1", 5); ("0xB2", 7)] "0xA1" = Some 5 /\
  fst (userInfo sample_chain (pid sample_config) "0xA1") = 0 /\
  ~ In "0xA1" (map row_address
                 [{| row_address := "0xB2"; amount_pct := 25;
                     balance_usd := "0"; is_contract := false |}]).
Proof.
  split; [reflexivity|]. split; [reflexivity|]. split; [reflexivity|].
  apply (zero_balance_is_filtered integer_floats sample_chain sample_config
           1%nat _ "0xA1"); reflexivity.
Defined.

(** ** C3: a provider that fails the requests wider than a threshold *)

Section Threshold.

Variable ci : contract_info.
Variable W : Z.
Variable logs : Z -> Z -> list entry.
Variable first : Z.

Hypothesis W_pos : 1 <= W.
Hypothesis base_pos : 1 <= TopHolders.chunk_size ci.




End Threshold.




(** ** C8: [millify] *)

Lemma thousands_nonneg fuel : forall x, 0 <= Millify.thousands fuel x.
Proof.
  induction fuel as [|fuel IH]; intros x; cbn [Millify.thousands]; [lia|].
  destruct (x <? 1000); [lia|]. specialize (IH (x / 1000)). lia.
Qed.

Lemma thousands_lower k : forall fuel x,
  (k <= fuel)%nat -> 1000 ^ Z.of_nat k <= x -> Z.of_nat k <= Millify.thousands fuel x.
Proof.
  induction k as [|k IH]; intros fuel x Hk Hx.
  - apply thousands_nonneg.
  - destruct fuel as [|fuel]; [lia|]. cbn [Millify.thousands].
    rewrite Nat2Z.inj_succ, Z.pow_succ_r in Hx by lia.
    assert (0 < 1000 ^ Z.of_nat k) by (apply Z.pow_pos_nonneg; lia).
    destruct (x <? 1000) eqn:Hlt; [apply Z.ltb_lt in Hlt; lia|].
    assert (1000 ^ Z.of_nat k <= x / 1000)
      by (apply Z.div_le_lower_bound; lia).
    specialize (IH fuel (x / 1000) ltac:(lia) H0). lia.
Qed.

Lemma round_half_even_bounds a b :
  a / b <= Millify.round_half_even a b <= a / b + 1.
Proof.
  unfold Millify.round_half_even.
  destruct (2 * (a mod b) <? b); [lia|].
  destruct (b <? 2 * (a mod b)); [lia|].
  destruct (Z.even (a / b)); lia.
Qed.

Lemma float_of_int_large n :
  10 ^ 15 <= n < 2 ^ 1024 - 2 ^ 970 ->
  exists x, Millify.float_of_int n = Returned x /\ 10 ^ 15 <= x.
Proof.
  intros [Hlo Hhi].
  assert (Hn : 0 < n) by (change (10^15) with 1000000000000000 in Hlo; lia).
  unfold Millify.float_of_int.
  rewrite (Z.abs_eq n) by lia. rewrite (Z.sgn_pos n) by lia.
  destruct (Z.log2 n - 52 <=? 0) eqn:He.
  - assert (Hlt : (2 ^ 1024 <=? n) = false).
    { apply Z.leb_gt. assert (0 < 2 ^ 970) by (apply Z.pow_pos_nonneg; lia). lia. }
    rewrite Hlt. exists n. split; [f_equal; lia|exact Hlo].
  - apply Z.leb_gt in He.
    set (e := Z.log2 n - 52) in *.
    pose proof (Z.log2_spec n Hn) as [Hl1 Hl2].
    assert (Hle : Z.log2 n = e + 52) by (unfold e; lia).
    rewrite Hle in Hl1.
    replace (Z.succ (Z.log2 n)) with (e + 53) in Hl2 by lia.
    rewrite Z.pow_add_r in Hl1, Hl2 by lia.
    set (P := 2 ^ e) in *.
    assert (HP : 2 <= P).
    { unfold P. change 2 with (2 ^ 1) at 1. apply Z.pow_le_mono_r; lia. }
    pose proof (round_half_even_bounds n P) as [Hr1 Hr2].
    assert (Hq1 : 2 ^ 52 <= n / P) by (apply Z.div_le_lower_bound; lia).
    assert (Hq2 : n / P < 2 ^ 53) by (apply Z.div_lt_upper_bound; lia).
    set (R := Millify.round_half_even n P) in *.
    assert (HA : 0 < 2 ^ 970) by (apply Z.pow_pos_nonneg; lia).
    assert (H1024 : 2 ^ 1024 = 2 ^ 54 * 2 ^ 970) by (rewrite <- Z.pow_add_r; [reflexivity|lia|lia]).
    assert (H971 : 2 ^ 971 = 2 * 2 ^ 970) by (rewrite <- Z.pow_succ_r; [reflexivity|lia]).
    assert (H972 : 2 ^ 972 = 4 * 2 ^ 970) by (change 4 with (2 ^ 2); rewrite <- Z.pow_add_r; [reflexivity|lia|lia]).
    rewrite H1024 in *.
    set (A := 2 ^ 970) in *.
    change (2 ^ 52) with 4503599627370496 in *.
    change (2 ^ 53) with 9007199254740992 in *.
    change (2 ^ 54) with 18014398509481984 in *.
    change (10 ^ 15) with 1000000000000000 in *.
    assert (Hlow : 1000000000000000 <= R * P) by nia.
    assert (Hup : R * P < 18014398509481984 * A).
    { destruct (Z_le_gt_dec e 970) as [Hs|Hs].
      - assert (P <= A) by (unfold P, A; apply Z.pow_le_mono_r; lia).
        nia.
      - assert (He971 : e = 971).
        { destruct (Z_le_gt_dec e 971) as [?|Hbig]; [lia|].
          assert (2 ^ 972 <= P) by (unfold P; apply Z.pow_le_mono_r; lia).
          rewrite H972 in H. fold A in H. nia. }
        assert (HPA : P = 2 * A) by (unfold P; rewrite He971; exact H971).
        assert (HR : R <= 9007199254740991).
        { destruct (Z_le_gt_dec (n / P) 9007199254740990) as [?|Hq]; [lia|].
          assert (Hqe : n / P = 9007199254740991) by lia.
          unfold R, Millify.round_half_even.
          pose proof (Z.mod_eq n P ltac:(lia)) as Hmod.
          rewrite Hqe in Hmod.
          assert (Hsmall : (2 * (n mod P) <? P) = true)
            by (apply Z.ltb_lt; lia).
          rewrite Hsmall, Hqe. lia. }
        nia. }
    assert (Hlt : (18014398509481984 * A <=? R * P) = false)
      by (apply Z.leb_gt; exact Hup).
    rewrite Hlt. eexists. split; [reflexivity|]. lia.
Qed.

Lemma round_half_even_upper a b N :
  0 < b -> a <= N * b -> Millify.round_half_even a b <= N.
Proof.
  intros Hb Ha. unfold Millify.round_half_even.
  pose proof (Z_div_mod_eq_full a b) as Hd.
  pose proof (Z.mod_pos_bound a b Hb) as Hm.
  destruct (2 * (a mod b) <? b) eqn:E1.
  - apply Z.ltb_lt in E1. nia.
  - apply Z.ltb_ge in E1. assert (a / b < N) by nia.
    destruct (b <? 2 * (a mod b)); [lia|].
    destruct (Z.even (a / b)); lia.
Qed.

Lemma round_half_even_lower a b N :
  0 < b -> N * b <= a -> N <= Millify.round_half_even a b.
Proof.
  intros Hb Ha.
  assert (N <= a / b) by (apply Z.div_le_lower_bound; lia).
  pose proof (round_half_even_bounds a b). lia.
Qed.

(** The exponent that [float_div] picks is not above the quotient. *)
Lemma float_div_exponent a b :
  0 < a -> 0 < b ->
  let E0 := Z.log2 a - Z.log2 b in
  let above := if 0 <=? E0 then b * 2 ^ E0 <=? a else b <=? a * 2 ^ (- E0) in
  let E := if above then E0 else E0 - 1 in
  0 <= E -> b * 2 ^ E <= a.
Proof.
  intros Ha Hb E0 above E HE.
  pose proof (Z.log2_spec a Ha) as [Ha1 Ha2].
  pose proof (Z.log2_spec b Hb) as [Hb1 Hb2].
  pose proof (Z.log2_nonneg a) as Hla. pose proof (Z.log2_nonneg b) as Hlb.
  unfold E, above in *. clear E above.
  destruct (0 <=? E0) eqn:Hs.
  - apply Z.leb_le in Hs.
    destruct (b * 2 ^ E0 <=? a) eqn:Hab; [now apply Z.leb_le in Hab|].
    assert (Heq : Z.log2 a = Z.succ (Z.log2 b) + (E0 - 1)) by (unfold E0; lia).
    rewrite Heq, Z.pow_add_r in Ha1 by lia.
    assert (0 < 2 ^ (E0 - 1)) by (apply Z.pow_pos_nonneg; lia).
    nia.
  - apply Z.leb_gt in Hs. destruct (b <=? a * 2 ^ (- E0)); lia.
Qed.

Lemma shown_lower a b c m e :
  0 < b -> 1 <= c < 2 ^ 53 -> c * b <= a ->
  Millify.float_div a b = (m, e) -> c <= Millify.shown m e.
Proof.
  intros Hb Hc Hab. unfold Millify.float_div.
  assert (Ha : 0 < a) by nia.
  pose proof (float_div_exponent a b Ha Hb) as HE. cbv zeta in HE.
  set (E := if (if 0 <=? Z.log2 a - Z.log2 b
                then b * 2 ^ (Z.log2 a - Z.log2 b) <=? a
                else b <=? a * 2 ^ (- (Z.log2 a - Z.log2 b)))
            then Z.log2 a - Z.log2 b else Z.log2 a - Z.log2 b - 1) in *.
  set (e0 := Z.max (E - 52) (-1074)).
  intros H. injection H as <- <-. unfold Millify.shown.
  destruct (0 <=? e0) eqn:He.
  - apply Z.leb_le in He.
    assert (HP : 0 < 2 ^ e0) by (apply Z.pow_pos_nonneg; lia).
    destruct (Z.eq_dec e0 0) as [Hz|Hnz].
    + rewrite Hz. change (2 ^ 0) with 1. rewrite !Z.mul_1_r.
      apply round_half_even_lower; lia.
    + assert (He0 : e0 = E - 52) by lia.
      assert (HEp : 0 <= E) by lia. specialize (HE HEp).
      assert (HEe : E = 52 + e0) by lia.
      rewrite HEe, Z.pow_add_r in HE by lia.
      assert (2 ^ 52 <= Millify.round_half_even a (b * 2 ^ e0))
        by (apply round_half_even_lower; nia).
      assert (2 <= 2 ^ e0).
      { change 2 with (2 ^ 1) at 1. apply Z.pow_le_mono_r; lia. }
      change (2 ^ 52) with 4503599627370496 in *.
      change (2 ^ 53) with 9007199254740992 in *. nia.
  - apply Z.leb_gt in He.
    assert (HP : 0 < 2 ^ (- e0)) by (apply Z.pow_pos_nonneg; lia).
    apply round_half_even_lower; [exact HP|].
    apply round_half_even_lower; [exact Hb|]. nia.
Qed.

Lemma shown_upper a b c m e :
  0 < a -> 0 < b -> 1 <= c <= 1024 -> a <= c * b ->
  Millify.float_div a b = (m, e) -> Millify.shown m e <= c.
Proof.
  intros Ha Hb Hc Hab. unfold Millify.float_div.
  set (E := if (if 0 <=? Z.log2 a - Z.log2 b
                then b * 2 ^ (Z.log2 a - Z.log2 b) <=? a
                else b <=? a * 2 ^ (- (Z.log2 a - Z.log2 b)))
            then Z.log2 a - Z.log2 b else Z.log2 a - Z.log2 b - 1) in *.
  assert (HE : E <= 10).
  { assert (Z.log2 a <= Z.log2 (b * 2 ^ 10)).
    { apply Z.log2_le_mono. change (2 ^ 10) with 1024. nia. }
    rewrite Z.log2_mul_pow2 in H by lia.
    unfold E. destruct (if 0 <=? Z.log2 a - Z.log2 b then _ else _); lia. }
  set (e0 := Z.max (E - 52) (-1074)).
  assert (He : e0 < 0) by lia.
  intros H. injection H as <- <-. unfold Millify.shown.
  replace (0 <=? e0) with false by (symmetry; apply Z.leb_gt; lia).
  assert (HP : 0 < 2 ^ (- e0)) by (apply Z.pow_pos_nonneg; lia).
  apply round_half_even_upper; [exact HP|].
  apply round_half_even_upper; [exact Hb|]. nia.
Qed.

Lemma format_0f_shown neg m e :
  Millify.format_0f neg m e
  = String.append (if neg then "-" else "")%string
      (Millify.digits (Millify.shown m e)).
Proof. reflexivity. Qed.

(** [millify] at an int is [millify] at the float that [float(n)] gives. *)
Lemma millify_converts_first n :
  Millify.millify n =
  (x <- Millify.float_of_int n ;;
   Millify.millify_float (Millify.Finite (x <? 0) (Z.abs x) 0)).
Proof.
  unfold Millify.millify.
  destruct (Millify.float_of_int n) as [x| |]; cbn [bind]; try reflexivity.
  unfold Millify.millify_float, Millify.floor_abs.
  change (0 <=? 0) with true. cbv iota. change (2 ^ 0) with 1.
  rewrite !Z.mul_1_r.
  destruct (x =? 0) eqn:Hx.
  - apply Z.eqb_eq in Hx. subst x. reflexivity.
  - apply Z.eqb_neq in Hx.
    replace (Z.abs x =? 0) with false by (symmetry; apply Z.eqb_neq; lia).
    replace (1 <=? Z.abs x) with true by (symmetry; apply Z.leb_le; lia).
    reflexivity.
Qed.

Lemma millify_float_clamps m e :
  10 ^ 15 <= Millify.floor_abs m e ->
  exists i, 1000 <= i /\
    Millify.millify_float (Millify.Finite false m e)
    = Returned (String.append (Millify.digits i) " T").
Proof.
  intros H. change (10 ^ 15) with 1000000000000000 in H.
  assert (Hm : 0 < m).
  { unfold Millify.floor_abs in H. destruct (0 <=? e) eqn:He.
    - apply Z.leb_le in He.
      assert (0 < 2 ^ e) by (apply Z.pow_pos_nonneg; lia). nia.
    - apply Z.leb_gt in He.
      assert (0 < 2 ^ (- e)) by (apply Z.pow_pos_nonneg; lia).
      destruct (Z_lt_le_dec 0 m) as [?|Hn]; [assumption|].
      assert (m / 2 ^ (- e) <= 0)
        by (apply Z.div_le_upper_bound; [lia|rewrite Z.mul_0_r; lia]).
      lia. }
  unfold Millify.millify_float.
  replace (m =? 0) with false by (symmetry; apply Z.eqb_neq; lia).
  replace (1 <=? Millify.floor_abs m e) with true
    by (symmetry; apply Z.leb_le; lia).
  assert (Hk : 5 <= Millify.floor_log10_div3 (Millify.floor_abs m e)).
  { unfold Millify.floor_log10_div3. apply (thousands_lower 5).
    - assert (49 <= Z.log2 (Millify.floor_abs m e)).
      { change 49 with (Z.log2 1000000000000000). apply Z.log2_le_mono. lia. }
      lia.
    - change (1000 ^ Z.of_nat 5) with 1000000000000000. lia. }
  change (Z.of_nat (List.length Millify.millnames) - 1) with 4.
  rewrite (Z.min_l 4) by lia. rewrite (Z.max_r 0 4) by lia.
  change (10 ^ (3 * 4)) with 1000000000000.
  destruct (Millify.float_div _ _) as [m' e'] eqn:Hd.
  exists (Millify.shown m' e'). split; [|reflexivity].
  apply (shown_lower _ _ 1000 m' e') in Hd; [exact Hd| | |].
  - destruct (0 <=? e) eqn:He; [lia|]. apply Z.leb_gt in He.
    assert (0 < 2 ^ (- e)) by (apply Z.pow_pos_nonneg; lia). lia.
  - change (2 ^ 53) with 9007199254740992. lia.
  - unfold Millify.floor_abs in H. destruct (0 <=? e) eqn:He; [lia|].
    apply Z.leb_gt in He.
    assert (HP : 0 < 2 ^ (- e)) by (apply Z.pow_pos_nonneg; lia).
    pose proof (Z.mul_div_le m (2 ^ (- e)) HP). nia.
Qed.

Lemma float_of_int_overflows n :
  2 ^ 1024 - 2 ^ 970 <= n -> Millify.float_of_int n = Raised OverflowError.
Proof.
  intros Hn.
  assert (HA : 0 < 2 ^ 970) by (apply Z.pow_pos_nonneg; lia).
  assert (H1024 : 2 ^ 1024 = 2 ^ 54 * 2 ^ 970)
    by (rewrite <- Z.pow_add_r; [reflexivity|lia|lia]).
  assert (H1023 : 2 ^ 1023 = 2 ^ 53 * 2 ^ 970)
    by (rewrite <- Z.pow_add_r; [reflexivity|lia|lia]).
  assert (H971 : 2 ^ 971 = 2 * 2 ^ 970)
    by (rewrite <- Z.pow_succ_r; [reflexivity|lia]).
  change (2 ^ 53) with 9007199254740992 in *.
  change (2 ^ 54) with 18014398509481984 in *.
  assert (Hpos : 0 < n) by lia.
  assert (Hl : 1023 <= Z.log2 n).
  { change 1023 with (Z.log2 (2 ^ 1023)). apply Z.log2_le_mono. lia. }
  unfold Millify.float_of_int.
  rewrite (Z.abs_eq n) by lia.
  replace (Z.log2 n - 52 <=? 0) with false by (symmetry; apply Z.leb_gt; lia).
  set (e := Z.log2 n - 52). set (P := 2 ^ e).
  assert (HP : 0 < P) by (apply Z.pow_pos_nonneg; lia).
  pose proof (Z.log2_spec n Hpos) as [Hl1 Hl2].
  replace (Z.log2 n) with (52 + e) in Hl1 by (unfold e; lia).
  replace (Z.succ (Z.log2 n)) with (53 + e) in Hl2 by (unfold e; lia).
  rewrite Z.pow_add_r in Hl1, Hl2 by (unfold e; lia). fold P in Hl1, Hl2.
  change (2 ^ 52) with 4503599627370496 in *.
  change (2 ^ 53) with 9007199254740992 in *.
  assert (Hover : 2 ^ 1024 <= Millify.round_half_even n P * P).
  { destruct (Z_le_gt_dec 1024 (Z.log2 n)) as [Hbig|Hsmall].
    - assert (Hq : 4503599627370496 <= Millify.round_half_even n P)
        by (apply round_half_even_lower; lia).
      assert (2 ^ 972 <= P) by (unfold P; apply Z.pow_le_mono_r; unfold e; lia).
      assert (H972 : 2 ^ 972 = 4 * 2 ^ 970)
        by (change 4 with (2 ^ 2); rewrite <- Z.pow_add_r; [reflexivity|lia|lia]).
      rewrite H1024. nia.
    - assert (He : e = 971) by (unfold e; lia).
      assert (HPA : P = 2 * 2 ^ 970) by (unfold P; rewrite He; exact H971).
      assert (Hq : n / P = 9007199254740991).
      { apply Z.le_antisymm.
        - assert (n / P < 9007199254740992)
            by (apply Z.div_lt_upper_bound; lia). lia.
        - apply Z.div_le_lower_bound; [lia|]. rewrite H1024 in Hn. lia. }
      assert (HR : Millify.round_half_even n P = 9007199254740992).
      { unfold Millify.round_half_even.
        pose proof (Z.mod_eq n P ltac:(lia)) as Hmod. rewrite Hq in *.
        rewrite H1024 in Hn.
        replace (2 * (n mod P) <? P) with false
          by (symmetry; apply Z.ltb_ge; lia).
        destruct (P <? 2 * (n mod P)); [reflexivity|].
        reflexivity. }
      rewrite HR, H1024, HPA. lia. }
  replace (2 ^ 1024 <=? Millify.round_half_even n P * P) with true
    by (symmetry; now apply Z.leb_le).
  reflexivity.
Qed.

(** C8 (as stated, refuted).  2^1024 is an input above 10^15 and
    [millify] raises on it: [float(n)] has no double to return. *)
Lemma millify_overflows :
  10 ^ 15 <= 2 ^ 1024 /\
  Millify.millify (2 ^ 1024) = Raised OverflowError.
Proof.
  split; [vm_compute; discriminate|vm_compute; reflexivity].
Qed.

(** C8 (amended).  [millify(0) == "0"], [millify(999) == "999"],
    [millify(1000) == "1 K"], [millify(1500000) == "2 M"].  For every
    input at or above 10^15 that is an int below 2^1024 - 2^970 or a
    finite float, the result is the decimal representation of an integer
    of at least 1000 followed by the largest suffix " T".  An int from
    2^1024 - 2^970 on and the float infinity raise [OverflowError]. *)
Theorem millify_examples_and_clamp :
  Millify.millify 0 = Returned "0" /\
  Millify.millify 999 = Returned "999" /\
  Millify.millify 1000 = Returned "1 K" /\
  Millify.millify 1500000 = Returned "2 M" /\
  (forall n, 10 ^ 15 <= n < 2 ^ 1024 - 2 ^ 970 ->
     exists i, 1000 <= i /\
       Millify.millify n
       = Returned (String.append (Millify.digits i) " T")) /\
  (forall n, 2 ^ 1024 - 2 ^ 970 <= n ->
     Millify.millify n = Raised OverflowError) /\
  (forall m e, 10 ^ 15 <= Millify.floor_abs m e ->
     exists i, 1000 <= i /\
       Millify.millify_float (Millify.Finite false m e)
       = Returned (String.append (Millify.digits i) " T")) /\
  Millify.millify_float (Millify.Infinity false) = Raised OverflowError.
Proof.
  split; [vm_compute; reflexivity|]. split; [vm_compute; reflexivity|].
  split; [vm_compute; reflexivity|]. split; [vm_compute; reflexivity|].
  split; [|split; [|split; [|reflexivity]]].
  - intros n Hn. destruct (float_of_int_large n Hn) as [x [Hx Hlo]].
    rewrite millify_converts_first, Hx. cbn [bind].
    change (10 ^ 15) with 1000000000000000 in Hlo.
    replace (x <? 0) with false by (symmetry; apply Z.ltb_ge; lia).
    rewrite (Z.abs_eq x) by lia.
    apply millify_float_clamps. unfold Millify.floor_abs.
    change (0 <=? 0) with true. cbv iota. change (2 ^ 0) with 1.
    change (10 ^ 15) with 1000000000000000. lia.
  - intros n Hn. unfold Millify.millify.
    rewrite (float_of_int_overflows n Hn). reflexivity.
  - exact millify_float_clamps.
Qed.

Lemma millify_examples_and_clamp_witness :
  10 ^ 15 <= 10 ^ 15 < 2 ^ 1024 - 2 ^ 970 /\
  Millify.millify (10 ^ 15) = Returned "1000 T" /\
  10 ^ 15 <= Millify.floor_abs (2 ^ 52) 10 /\
  Millify.millify_float (Millify.Finite false (2 ^ 52) 10)
    = Returned "4611686 T" /\
  (exists i, 1000 <= i /\
     Millify.millify (10 ^ 15)
     = Returned (String.append (Millify.digits i) " T")) /\
  (exists i, 1000 <= i /\
     Millify.millify_float (Millify.Finite false (2 ^ 52) 10)
     = Returned (String.append (Millify.digits i) " T")).
Proof.
  split; [split; [vm_compute; discriminate|vm_compute; reflexivity]|].
  split; [vm_compute; reflexivity|].
  split; [vm_compute; discriminate|].
  split; [vm_compute; reflexivity|].
  destruct millify_examples_and_clamp as [_ [_ [_ [_ [Hint [_ [Hfloat _]]]]]]].
  split.
  - apply Hint. split; [vm_compute; discriminate|vm_compute; reflexivity].
  - apply Hfloat. vm_compute; discriminate.
Defined.

(** * Further properties of the scan *)

(** ** Which blocks a scan fetches *)

Lemma fetch_count_app tr tr' b :
  fetch_count (tr ++ tr') b = (fetch_count tr b + fetch_count tr' b)%nat.
Proof.
  unfold fetch_count. rewrite filter_app, length_app. reflexivity.
Qed.

Lemma fetch_count_failed f t b :
  fetch_count [{| req_from := f; req_to := t; req_ok := false |}] b = 0%nat.
Proof. reflexivity. Qed.

Lemma fetch_count_ok f t b :
  fetch_count [{| req_from := f; req_to := t; req_ok := true |}] b =
  if (f <=? b) && (b <=? t) then 1%nat else 0%nat.
Proof.
  unfold fetch_count. simpl. destruct ((f <=? b) && (b <=? t)); reflexivity.
Qed.

Section Coverage.

Variable ci : contract_info.
Variable p : provider.
Variable first : Z.
Variable last : Z.

Hypothesis base_pos : 1 <= TopHolders.chunk_size ci.

Lemma coverage_pass s :
  1 <= cur_chunk s -> from_block s <= to_block s -> fetched_above last s ->
  match loop_body ci p first s with
  | Continue s' =>
      1 <= cur_chunk s' /\ from_block s' <= to_block s' /\ fetched_above last s'
  | Break s' => fetched_above last s' /\ to_block s' < last
  | Raise _ => True
  end.
Proof.
  intros Hc Hft [Hto Hcov]. unfold loop_body.
  destruct (p (List.length (issued s)) (from_block s) (to_block s))
    as [| |es]; [exact I| |].
  - split; [|split]; simpl; [lia|lia|].
    split; [exact Hto|]. intros b. simpl.
    rewrite fetch_count_app, fetch_count_failed, Hcov. lia.
  - assert (Hnew : fetched_above last
      {| to_block := from_block s - 1;
         from_block := Z.max first (from_block s - cur_chunk s);
         cur_chunk := TopHolders.chunk_size ci;
         all_deposits := record_entries (all_deposits s) es;
         issued := issued s ++
           [{| req_from := from_block s; req_to := to_block s;
               req_ok := true |}] |}).
    { split; simpl; [lia|]. intros b.
      rewrite fetch_count_app, fetch_count_ok, Hcov.
      destruct (to_block s <? b) eqn:E1; destruct (b <=? last) eqn:E2;
        destruct (from_block s <=? b) eqn:E3;
        destruct (b <=? to_block s) eqn:E4;
        destruct (from_block s - 1 <? b) eqn:E5; simpl; try reflexivity;
        repeat match goal with
               | H : (_ <? _) = true |- _ => apply Z.ltb_lt in H
               | H : (_ <? _) = false |- _ => apply Z.ltb_ge in H
               | H : (_ <=? _) = true |- _ => apply Z.leb_le in H
               | H : (_ <=? _) = false |- _ => apply Z.leb_gt in H
               end; lia. }
    destruct (Z.max first (from_block s - cur_chunk s) <=? first) eqn:Hb.
    + split; [exact Hnew|]. simpl. lia.
    + apply Z.leb_gt in Hb. split; [|split]; simpl; [lia|lia|exact Hnew].
Qed.

Lemma coverage_loop fuel : forall s s',
  1 <= cur_chunk s -> from_block s <= to_block s -> fetched_above last s ->
  while_true ci p fuel first s = Returned s' ->
  fetched_above last s' /\ to_block s' < last.
Proof.
  induction fuel as [|fuel IH]; intros s s' Hc Hft Hcov; cbn [while_true];
    [discriminate|].
  pose proof (coverage_pass s Hc Hft Hcov) as Hp.
  destruct (loop_body ci p first s) as [s1|s1|e]; [| |discriminate].
  - destruct Hp as [? [? ?]]. now apply IH.
  - intros H. injection H as <-. exact Hp.
Qed.

End Coverage.

(** X1. With a chunk size of at least 1, whatever the provider does: when the
    scan returns, the blocks covered by its successful requests are exactly
    the blocks above the final upper bound and up to the end block, every one
    of them covered by exactly one successful request (no gap between the
    chunks and no block fetched twice), and at least the end block is among
    them. *)
Theorem scan_fetches_each_block_once ci p bn fuel s :
  1 <= TopHolders.chunk_size ci ->
  scan ci p bn fuel = Returned s ->
  to_block s < TopHolders.end_block bn ci /\
  forall b,
    fetch_count (issued s) b =
    if (to_block s <? b) && (b <=? TopHolders.end_block bn ci)
    then 1%nat else 0%nat.
Proof.
  intros Hb Hs. apply scan_inv in Hs as [_ Hw].
  assert (H0 : fetched_above (TopHolders.end_block bn ci)
                 (initial_state ci bn)).
  { split; simpl; [lia|]. intros b.
    destruct (TopHolders.end_block bn ci <? b) eqn:E1;
      destruct (b <=? TopHolders.end_block bn ci) eqn:E2; try reflexivity.
    apply Z.ltb_lt in E1. apply Z.leb_le in E2. lia. }
  assert (H1 : 1 <= cur_chunk (initial_state ci bn)) by exact Hb.
  assert (H2 : from_block (initial_state ci bn)
               <= to_block (initial_state ci bn)) by (simpl; lia).
  destruct (coverage_loop ci p (first_block_of ci bn)
              (TopHolders.end_block bn ci) Hb fuel (initial_state ci bn) s
              H1 H2 H0 Hw) as [[_ Hcov] Hlt].
  split; assumption.
Qed.

Lemma scan_fetches_each_block_once_witness :
  1 <= TopHolders.chunk_size wide_config /\
  exists s,
    scan wide_config (threshold_provider 2 no_logs) 0 12 = Returned s /\
    to_block s = 985 /\
    to_block s < TopHolders.end_block 0 wide_config /\
    forall b,
      fetch_count (issued s) b =
      if (to_block s <? b) && (b <=? TopHolders.end_block 0 wide_config)
      then 1%nat else 0%nat.
Proof.
  split; [vm_compute; discriminate|].
  eexists. split; [vm_compute; reflexivity|]. split; [reflexivity|].
  apply (scan_fetches_each_block_once wide_config (threshold_provider 2 no_logs)
           0 12%nat).
  - vm_compute; discriminate.
  - vm_compute; reflexivity.
Defined.

(** ** Configurations at the edges *)

Lemma negative_chunk_loop ci logs first fuel : forall s,
  TopHolders.chunk_size ci < 0 ->
  cur_chunk s = TopHolders.chunk_size ci ->
  first < from_block s - TopHolders.chunk_size ci ->
  while_true ci (reliable logs) fuel first s = Running.
Proof.
  induction fuel as [|fuel IH]; intros s Hneg Hc Hf; cbn [while_true];
    [reflexivity|].
  unfold loop_body, reliable. rewrite Hc.
  destruct (Z.max first (from_block s - TopHolders.chunk_size ci) <=? first)
    eqn:Hb; [apply Z.leb_le in Hb; lia|].
  apply IH; simpl; [exact Hneg|reflexivity|lia].
Qed.

(** X2. A negative chunk size passes the assertion [n_blocks >= chunk_size]
    whenever the window is not smaller, and then the scan of a provider that
    never fails does not end: every request succeeds and moves the bounds
    upwards, away from the floor. *)
Theorem negative_chunk_size_never_returns ci logs bn fuel :
  TopHolders.chunk_size ci < 0 ->
  TopHolders.chunk_size ci <= TopHolders.n_blocks ci ->
  scan ci (reliable logs) bn fuel = Running.
Proof.
  intros Hneg Hle. unfold scan, py_assert.
  replace (TopHolders.chunk_size ci <=? TopHolders.n_blocks ci) with true
    by (symmetry; now apply Z.leb_le).
  cbn [bind]. apply negative_chunk_loop; [exact Hneg|reflexivity|].
  unfold first_block_of, initial_state. simpl. lia.
Qed.

Lemma negative_chunk_size_never_returns_witness :
  TopHolders.chunk_size negative_chunk_config < 0 /\
  TopHolders.chunk_size negative_chunk_config
    <= TopHolders.n_blocks negative_chunk_config /\
  scan negative_chunk_config (reliable one_deposit) 0 1000 = Running.
Proof.
  split; [reflexivity|]. split; [vm_compute; discriminate|].
  apply (negative_chunk_size_never_returns negative_chunk_config one_deposit
           0 1000%nat).
  - reflexivity.
  - vm_compute; discriminate.
Defined.

(** X3. When the window equals the chunk size, as it does when neither is
    configured, a provider that answers the first request ends the scan there:
    one request, from the floor to the end block, and the record is what its
    entries give. *)
Theorem window_of_one_chunk_is_one_request ci p bn fuel es :
  0 < TopHolders.chunk_size ci ->
  TopHolders.n_blocks ci = TopHolders.chunk_size ci ->
  p 0%nat (first_block_of ci bn) (TopHolders.end_block bn ci) = Entries es ->
  exists s,
    scan ci p bn (S fuel) = Returned s /\
    issued s = [{| req_from := first_block_of ci bn;
                   req_to := TopHolders.end_block bn ci; req_ok := true |}] /\
    all_deposits s = record_entries [] es.
Proof.
  intros Hpos Heq Hp. unfold scan, py_assert.
  replace (TopHolders.chunk_size ci <=? TopHolders.n_blocks ci) with true
    by (symmetry; apply Z.leb_le; lia).
  cbn [bind while_true]. unfold loop_body.
  assert (Hfrom : from_block (initial_state ci bn) = first_block_of ci bn)
    by (unfold initial_state, first_block_of; simpl; lia).
  rewrite Hfrom. cbn [issued initial_state List.length to_block]. rewrite Hp.
  destruct (Z.max (first_block_of ci bn)
              (first_block_of ci bn - cur_chunk (initial_state ci bn))
            <=? first_block_of ci bn) eqn:Hb.
  - eexists. split; [reflexivity|]. split; reflexivity.
  - apply Z.leb_gt in Hb. simpl in Hb. lia.
Qed.

Lemma window_of_one_chunk_is_one_request_witness :
  0 < TopHolders.chunk_size default_config /\
  TopHolders.n_blocks default_config = TopHolders.chunk_size default_config /\
  exists s,
    scan default_config (reliable one_deposit) 10000 1 = Returned s /\
    issued s = [{| req_from := first_block_of default_config 10000;
                   req_to := TopHolders.end_block 10000 default_config;
                   req_ok := true |}] /\
    all_deposits s = record_entries [] (one_deposit 5001 10000).
Proof.
  split; [reflexivity|]. split; [reflexivity|].
  apply (window_of_one_chunk_is_one_request default_config
           (reliable one_deposit) 10000 0%nat (one_deposit 5001 10000)).
  - reflexivity.
  - reflexivity.
  - reflexivity.
Defined.

Lemma whole_chunks_loop ci logs first (k : nat) : forall s,
  1 <= TopHolders.chunk_size ci ->
  cur_chunk s = TopHolders.chunk_size ci ->
  from_block s = first + Z.of_nat (S k) * TopHolders.chunk_size ci ->
  exists s',
    while_true ci (reliable logs) (S k) first s = Returned s' /\
    to_block s' = first + TopHolders.chunk_size ci - 1 /\
    List.length (issued s') = (List.length (issued s) + S k)%nat.
Proof.
  induction k as [|k IH]; intros s Hpos Hc Hf;
    rewrite Nat2Z.inj_succ in Hf.
  - cbn [while_true]. unfold loop_body, reliable. rewrite Hc.
    replace (Z.max first (from_block s - TopHolders.chunk_size ci) <=? first)
      with true by (symmetry; apply Z.leb_le; lia).
    eexists. split; [reflexivity|]. cbn [to_block issued].
    split; [lia|]. rewrite length_app. reflexivity.
  - remember (S k) as k1 eqn:Hk1.
    cbn [while_true]. unfold loop_body, reliable. rewrite Hc.
    replace (Z.max first (from_block s - TopHolders.chunk_size ci) <=? first)
      with false by (symmetry; apply Z.leb_gt; nia).
    subst k1.
    match goal with
    | |- context [while_true _ _ _ _ ?st] =>
        destruct (IH st Hpos) as [s' [Hw [Hto Hlen]]]
    end.
    + reflexivity.
    + cbn [from_block]. rewrite Nat2Z.inj_succ. nia.
    + exists s'. split; [exact Hw|]. split; [exact Hto|].
      rewrite Hlen. cbn [issued]. rewrite length_app. simpl. lia.
Qed.

(** X4. When the window is [j] whole chunks, [j >= 2], and the provider never
    fails, the scan issues [j - 1] requests and returns with its upper bound
    [chunk_size - 1] blocks above the floor: the lowest chunk of the window is
    computed by the last advance and never requested. *)
Theorem lowest_chunk_is_not_requested ci logs bn (j : nat) :
  1 <= TopHolders.chunk_size ci ->
  (2 <= j)%nat ->
  TopHolders.n_blocks ci = Z.of_nat j * TopHolders.chunk_size ci ->
  exists s,
    scan ci (reliable logs) bn (j - 1) = Returned s /\
    List.length (issued s) = (j - 1)%nat /\
    to_block s = first_block_of ci bn + TopHolders.chunk_size ci - 1.
Proof.
  intros Hpos Hj Hn. unfold scan, py_assert.
  replace (TopHolders.chunk_size ci <=? TopHolders.n_blocks ci) with true
    by (symmetry; apply Z.leb_le; nia).
  cbn [bind].
  destruct j as [|[|k]]; [lia|lia|].
  replace (S (S k) - 1)%nat with (S k) by lia.
  destruct (whole_chunks_loop ci logs (first_block_of ci bn) k
              (initial_state ci bn) Hpos eq_refl) as [s [Hw [Hto Hlen]]].
  - unfold initial_state, first_block_of. simpl from_block.
    rewrite Hn. rewrite !Nat2Z.inj_succ. lia.
  - exists s. split; [exact Hw|]. split; [|exact Hto].
    rewrite Hlen. reflexivity.
Qed.

Lemma lowest_chunk_is_not_requested_witness :
  1 <= TopHolders.chunk_size three_chunk_config /\
  (2 <= 3)%nat /\
  TopHolders.n_blocks three_chunk_config
    = Z.of_nat 3 * TopHolders.chunk_size three_chunk_config /\
  exists s,
    scan three_chunk_config (reliable one_deposit) 0 (3 - 1) = Returned s /\
    List.length (issued s) = (3 - 1)%nat /\
    to_block s = first_block_of three_chunk_config 0
                 + TopHolders.chunk_size three_chunk_config - 1.
Proof.
  split; [vm_compute; discriminate|]. split; [lia|]. split; [reflexivity|].
  apply (lowest_chunk_is_not_requested three_chunk_config one_deposit 0 3%nat).
  - vm_compute; discriminate.
  - lia.
  - reflexivity.
Defined.

(** ** The record and the addresses served *)

Lemma dict_get_none d k : dict_get d k = None <-> ~ In k (dict_keys d).
Proof.
  induction d as [|[k' v] d IH]; simpl; [intuition|].
  destruct (String.eqb k' k) eqn:E.
  - apply String.eqb_eq in E. split; [discriminate|]. intros H. tauto.
  - apply String.eqb_neq in E. rewrite IH. tauto.
Qed.

Lemma dict_mem_in d k : dict_mem d k = true <-> In k (dict_keys d).
Proof.
  unfold dict_mem. pose proof (dict_get_none d k) as H.
  destruct (dict_get d k) as [v|].
  - split; [intros _|reflexivity].
    destruct (in_dec string_dec k (dict_keys d)) as [Hin|Hn]; [exact Hin|].
    apply H in Hn. discriminate.
  - split; [discriminate|]. intros Hin. exfalso. now apply (proj1 H).
Qed.

Lemma record_entry_keys d e :
  dict_keys (record_entry d e) =
  if dict_mem d (user e) then dict_keys d else dict_keys d ++ [user e].
Proof.
  destruct (dict_mem d (user e)) eqn:Hm.
  - unfold record_entry. rewrite Hm. reflexivity.
  - rewrite record_entry_absent by exact Hm.
    unfold dict_keys. rewrite map_app. reflexivity.
Qed.

Lemma record_entry_nodup d e :
  NoDup (dict_keys d) -> NoDup (dict_keys (record_entry d e)).
Proof.
  intros H. rewrite record_entry_keys.
  destruct (dict_mem d (user e)) eqn:E; [exact H|].
  apply (Permutation_NoDup (l := user e :: dict_keys d)).
  - apply Permutation_cons_append.
  - constructor; [|exact H]. intros Hin.
    apply dict_mem_in in Hin. congruence.
Qed.

Lemma record_entries_mem es : forall d a,
  dict_mem (record_entries d es) a = true <->
  dict_mem d a = true \/ In a (map user es).
Proof.
  induction es as [|e es IH]; intros d a; simpl; [tauto|].
  rewrite IH, !dict_mem_in, record_entry_keys.
  destruct (dict_mem d (user e)) eqn:E.
  - apply dict_mem_in in E. split; [tauto|].
    intros [H|[<-|H]]; tauto.
  - rewrite in_app_iff. simpl. tauto.
Qed.

(** A property of the record that holds when it is empty and that
    recording an entry keeps, holds for the record of every scan that
    returns. *)
Lemma scan_record_invariant (P : dict -> Prop) ci p bn fuel s :
  P [] -> (forall d e, P d -> P (record_entry d e)) ->
  scan ci p bn fuel = Returned s -> P (all_deposits s).
Proof.
  intros H0 Hstep Hs. apply scan_inv in Hs as [_ Hw].
  assert (Hes : forall es d, P d -> P (record_entries d es)).
  { induction es as [|e es IH]; intros d Hd; simpl; [exact Hd|].
    apply IH, Hstep, Hd. }
  assert (Hl : forall n s0, P (all_deposits s0) ->
            while_true ci p n (first_block_of ci bn) s0 = Returned s ->
            P (all_deposits s)).
  { induction n as [|n IH]; intros s0 Hd; cbn [while_true]; [discriminate|].
    unfold loop_body.
    destruct (p (List.length (issued s0)) (from_block s0) (to_block s0))
      as [| |es]; [discriminate| |].
    - apply IH. exact Hd.
    - destruct (Z.max (first_block_of ci bn) (from_block s0 - cur_chunk s0)
                <=? first_block_of ci bn).
      + intros H. injection H as <-. simpl. now apply Hes.
      + apply IH. simpl. now apply Hes. }
  exact (Hl fuel (initial_state ci bn) H0 Hw).
Qed.

Lemma record_keys_are_unique_aux ci p bn fuel s :
  scan ci p bn fuel = Returned s -> NoDup (dict_keys (all_deposits s)).
Proof.
  apply (scan_record_invariant (fun d => NoDup (dict_keys d))).
  - constructor.
  - intros d e. apply record_entry_nodup.
Qed.



Lemma served_app p tr r a :
  served p (tr ++ [r]) a <->
  served p tr a \/
  exists es, p (List.length tr) (req_from r) (req_to r) = Entries es /\
             In a (map user es).
Proof.
  unfold served. split.
  - intros [i [r' [es [Hn [Hp Hin]]]]].
    destruct (Nat.lt_ge_cases i (List.length tr)) as [Hlt|Hge].
    + left. exists i, r', es. rewrite nth_error_app1 in Hn by exact Hlt.
      auto.
    + rewrite nth_error_app2 in Hn by exact Hge.
      destruct (i - List.length tr)%nat as [|k] eqn:Hk; simpl in Hn.
      * injection Hn as <-. right. exists es.
        replace (List.length tr) with i by lia. auto.
      * destruct k; discriminate.
  - intros [[i [r' [es [Hn [Hp Hin]]]]]|[es [Hp Hin]]].
    + exists i, r', es. split; [|auto].
      rewrite nth_error_app1; [exact Hn|].
      apply nth_error_Some. congruence.
    + exists (List.length tr), r, es. split; [|auto].
      rewrite nth_error_app2 by lia. rewrite Nat.sub_diag. reflexivity.
Qed.

Lemma served_loop ci p first fuel : forall s s',
  (forall a, dict_mem (all_deposits s) a = true <-> served p (issued s) a) ->
  while_true ci p fuel first s = Returned s' ->
  forall a, dict_mem (all_deposits s') a = true <-> served p (issued s') a.
Proof.
  induction fuel as [|fuel IH]; intros s s' Hinv; cbn [while_true];
    [discriminate|].
  unfold loop_body.
  destruct (p (List.length (issued s)) (from_block s) (to_block s))
    as [| |es] eqn:Hp; [discriminate| |].
  - apply IH. intros a. simpl. rewrite served_app, Hinv. simpl.
    split; [tauto|]. intros [H|[es [He _]]]; [exact H|congruence].
  - assert (Hnew : forall a,
      dict_mem (record_entries (all_deposits s) es) a = true <->
      served p (issued s ++
                  [{| req_from := from_block s; req_to := to_block s;
                      req_ok := true |}]) a).
    { intros a. rewrite served_app, record_entries_mem, Hinv. simpl.
      split.
      - intros [H|H]; [tauto|]. right. exists es. auto.
      - intros [H|[es' [He Hin]]]; [tauto|].
        right. congruence. }
    destruct (Z.max first (from_block s - cur_chunk s) <=? first).
    + intros H. injection H as <-. exact Hnew.
    + apply IH. exact Hnew.
Qed.

(** X6. When a scan returns, the addresses in its record are exactly the users
    of the entries that the provider served in answer to its requests: none is
    invented and none that was served is missing. *)
Theorem record_holds_the_served_addresses ci p bn fuel s a :
  scan ci p bn fuel = Returned s ->
  (dict_mem (all_deposits s) a = true <-> served p (issued s) a).
Proof.
  intros Hs. apply scan_inv in Hs as [_ Hw].
  revert a. eapply served_loop; [|exact Hw].
  intros a. simpl. unfold served. split; [discriminate|].
  intros [i [r [es [Hn _]]]]. destruct i; discriminate.
Qed.

Lemma record_holds_the_served_addresses_witness :
  exists s,
    scan two_chunk_config (reliable conflicting_logs) 0 2 = Returned s /\
    (dict_mem (all_deposits s) "0xA1" = true <->
     served (reliable conflicting_logs) (issued s) "0xA1").
Proof.
  eexists. split; [vm_compute; reflexivity|].
  apply (record_holds_the_served_addresses two_chunk_config
           (reliable conflicting_logs) 0 2%nat).
  vm_compute; reflexivity.
Defined.

(** * Further properties of the report *)

Section Ranking.

Context {F : Type} (fl : float_ops F).

Lemma insert_row_perm x l : Permutation (insert_row fl x l) (x :: l).
Proof.
  induction l as [|y l IH]; simpl; [reflexivity|].
  destruct (float_ltb fl (amount_pct x) (amount_pct y)); [|reflexivity].
  rewrite IH. apply perm_swap.
Qed.

Lemma sorted_desc_perm l : Permutation (sorted_desc fl l) l.
Proof.
  induction l as [|x l IH]; simpl; [reflexivity|].
  rewrite insert_row_perm. now constructor.
Qed.

Lemma insert_row_descending x l :
  (forall a b, float_ltb fl a b = true -> float_ltb fl b a = false) ->
  descending fl l -> descending fl (insert_row fl x l).
Proof.
  intros Hasym. unfold descending.
  induction l as [|y l IH]; intros Hs; simpl.
  - repeat constructor.
  - destruct (float_ltb fl (amount_pct x) (amount_pct y)) eqn:E.
    + inversion Hs as [|? ? Hs' Hhd]; subst.
      constructor; [now apply IH|].
      destruct l as [|z l]; simpl.
      * constructor. now apply Hasym.
      * destruct (float_ltb fl (amount_pct x) (amount_pct z)).
        -- inversion Hhd; subst. now constructor.
        -- constructor. now apply Hasym.
    + constructor; [exact Hs|]. now constructor.
Qed.

(** X7. The ranking keeps the rows it is given, each as often as it occurs,
    and, when the order of floats is asymmetric, no row of the result is
    followed by a row with a larger share. *)
Theorem ranking_is_a_descending_permutation l :
  (forall a b, float_ltb fl a b = true -> float_ltb fl b a = false) ->
  Permutation (sorted_desc fl l) l /\ descending fl (sorted_desc fl l).
Proof.
  intros Hasym. split; [apply sorted_desc_perm|].
  induction l as [|x l IH]; simpl; [constructor|].
  now apply insert_row_descending.
Qed.

Lemma filter_tied_insert k x l :
  (forall a b c, float_ltb fl a b = true ->
                 float_ltb fl a c = true \/ float_ltb fl c b = true) ->
  filter (tied fl k) (insert_row fl x l) = filter (tied fl k) (x :: l).
Proof.
  intros Hnt. induction l as [|y l IH]; [reflexivity|].
  cbn [insert_row].
  destruct (float_ltb fl (amount_pct x) (amount_pct y)) eqn:E;
    [|reflexivity].
  cbn [filter] in *. rewrite IH.
  destruct (tied fl k x) eqn:Tx; [|reflexivity].
  destruct (tied fl k y) eqn:Ty; [|reflexivity].
  exfalso. unfold tied in Tx, Ty.
  apply andb_prop in Tx as [Tx1 Tx2]. apply andb_prop in Ty as [Ty1 Ty2].
  apply negb_true_iff in Tx1, Tx2, Ty1, Ty2.
  destruct (Hnt _ _ k E); congruence.
Qed.

(** X8. The ranking is stable: when the order of floats is negatively
    transitive (what is smaller than [b] is smaller than [c] or [c] is smaller
    than [b]), the rows whose share ties with any given share come out in the
    order in which they went in. *)
Theorem ranking_is_stable k l :
  (forall a b c, float_ltb fl a b = true ->
                 float_ltb fl a c = true \/ float_ltb fl c b = true) ->
  filter (tied fl k) (sorted_desc fl l) = filter (tied fl k) l.
Proof.
  intros Hnt. induction l as [|x l IH]; [reflexivity|].
  cbn [sorted_desc fold_right].
  rewrite (filter_tied_insert k x _ Hnt). cbn [filter].
  fold (sorted_desc fl l). rewrite IH. reflexivity.
Qed.

End Ranking.

Lemma integer_order_asymmetric a b :
  float_ltb integer_floats a b = true -> float_ltb integer_floats b a = false.
Proof.
  simpl. intros H. apply Z.ltb_lt in H. apply Z.ltb_ge. lia.
Qed.

Lemma integer_order_negatively_transitive a b c :
  float_ltb integer_floats a b = true ->
  float_ltb integer_floats a c = true \/ float_ltb integer_floats c b = true.
Proof.
  simpl. intros H. apply Z.ltb_lt in H.
  destruct (Z.ltb_spec a c); [now left|right]. apply Z.ltb_lt. lia.
Qed.

Lemma ranking_is_a_descending_permutation_witness :
  map row_address (sorted_desc integer_floats sample_rows)
    = ["0xB2"; "0xA1"; "0xC3"] /\
  Permutation (sorted_desc integer_floats sample_rows) sample_rows /\
  descending integer_floats (sorted_desc integer_floats sample_rows).
Proof.
  split; [reflexivity|].
  apply (ranking_is_a_descending_permutation integer_floats sample_rows).
  exact integer_order_asymmetric.
Defined.

Lemma ranking_is_stable_witness :
  map row_address (filter (tied integer_floats 5) sample_rows)
    = ["0xA1"; "0xC3"] /\
  filter (tied integer_floats 5) (sorted_desc integer_floats sample_rows)
    = filter (tied integer_floats 5) sample_rows.
Proof.
  split; [reflexivity|].
  apply (ranking_is_stable integer_floats 5 sample_rows).
  exact integer_order_negatively_transitive.
Defined.

Section ReportRows.

Context {F : Type} (fl : float_ops F).
Variable ch : chain.
Variable ci : contract_info.

Lemma fetch_user_info_addresses usd lp_total addrs : forall acc rows,
  fetch_user_info fl ch ci usd lp_total addrs acc = Returned rows ->
  map row_address rows =
  map row_address acc ++ filter (has_stake ch ci) addrs.
Proof.
  induction addrs as [|addr rest IH]; intros acc rows;
    cbn [fetch_user_info filter].
  - intros H. injection H as <-. now rewrite app_nil_r.
  - unfold has_stake at 1.
    destruct (userInfo ch (pid ci) addr) as [amt debt] eqn:Hu.
    cbn [fst]. destruct (amt =? 0) eqn:Hz; cbn [negb].
    + apply IH.
    + destruct (int_truediv fl (100 * amt) lp_total) as [pct| |];
        cbn [bind]; try discriminate.
      destruct (float_mul_int fl usd amt) as [num| |]; cbn [bind];
        try discriminate.
      destruct (float_truediv fl num lp_total) as [v| |]; cbn [bind];
        try discriminate.
      destruct (float_millify fl v) as [text| |]; cbn [bind];
        try discriminate.
      intros H. rewrite (IH _ _ H), map_app, <- app_assoc. reflexivity.
Qed.

(** X9. When a contract is processed to the end, the addresses of the rows of
    its report are, up to the order of the ranking, the recorded addresses
    whose current stake is not zero: every such address has a row, and no
    address has two. *)
Theorem report_has_one_row_per_holder fuel rows :
  process_contract fl ch ci fuel = Returned (Some rows) ->
  exists s,
    scan ci (deposit_logs ch) (blockNumber ch) fuel = Returned s /\
    Permutation (map row_address rows)
      (filter (has_stake ch ci) (dict_keys (all_deposits s))) /\
    NoDup (map row_address rows).
Proof.
  unfold process_contract.
  destruct (negb (enabled ci)); [discriminate|].
  destruct (scan ci (deposit_logs ch) (blockNumber ch) fuel) as [s| |]
    eqn:Hs; cbn [bind]; try discriminate.
  destruct (get_master_chef_balance fl ch ci) as [[usd lp_total]| |];
    cbn [bind]; try discriminate.
  cbn [fst snd].
  destruct (fetch_user_info fl ch ci usd lp_total
              (dict_keys (all_deposits s)) []) as [info| |] eqn:Hf;
    cbn [bind]; try discriminate.
  intros H. injection H as <-. exists s. split; [reflexivity|].
  apply fetch_user_info_addresses in Hf. simpl in Hf.
  assert (Hperm : Permutation (map row_address (sorted_desc fl info))
                    (filter (has_stake ch ci) (dict_keys (all_deposits s)))).
  { rewrite <- Hf. apply Permutation_map, sorted_desc_perm. }
  split; [exact Hperm|].
  apply (Permutation_NoDup (Permutation_sym Hperm)).
  apply NoDup_filter. eapply record_keys_are_unique_aux. exact Hs.
Qed.

End ReportRows.

Lemma report_has_one_row_per_holder_witness :
  exists rows s,
    process_contract integer_floats sample_chain sample_config 1
      = Returned (Some rows) /\
    scan sample_config (deposit_logs sample_chain)
      (blockNumber sample_chain) 1 = Returned s /\
    Permutation (map row_address rows)
      (filter (has_stake sample_chain sample_config)
         (dict_keys (all_deposits s))) /\
    NoDup (map row_address rows).
Proof.
  eexists.
  destruct (report_has_one_row_per_holder integer_floats sample_chain
              sample_config 1%nat _ eq_refl) as [s H].
  exists s. split; [reflexivity|exact H].
Defined.

(** ** The run over all the contracts *)

Section Run.

Context {F : Type} (fl : float_ops F).
Variable chain_of : contract_info -> chain.
Variable fuel : nat.

(** Running a list of contracts that is the concatenation of two lists
    runs the first list and, only if that returns, the second on the files
    it left; otherwise the run stops with the files written so far. *)
Lemma main_app cs1 : forall cs2 fs,
  main fl chain_of fuel (cs1 ++ cs2) fs =
  match main fl chain_of fuel cs1 fs with
  | (fs1, Returned _) => main fl chain_of fuel cs2 fs1
  | (fs1, Raised e) => (fs1, Raised e)
  | (fs1, Running) => (fs1, Running)
  end.
Proof.
  induction cs1 as [|c cs1 IH]; intros cs2 fs; cbn [main app];
    [reflexivity|].
  destruct (process_contract fl (chain_of c) c fuel) as [[rows|]| |];
    try reflexivity; [|apply IH].
  destruct (csv_writer c column_names rows fs) as [fs'| |]; try reflexivity.
  apply IH.
Qed.

(** X10. Nothing isolates one contract from the next: when a contract raises,
    the run raises the same exception, the contracts after it are not
    processed (whatever they are), and the files are those that the contracts
    before it wrote. *)
Theorem run_stops_at_the_first_error cs1 c cs2 fs fs1 e :
  main fl chain_of fuel cs1 fs = (fs1, Returned tt) ->
  process_contract fl (chain_of c) c fuel = Raised e ->
  main fl chain_of fuel (cs1 ++ c :: cs2) fs = (fs1, Raised e).
Proof.
  intros H1 Hc. rewrite main_app, H1. cbn [main]. rewrite Hc. reflexivity.
Qed.

(** X11. A contract that is not enabled leaves no trace: the run is the run of
    the list without it. *)
Theorem disabled_contract_is_skipped cs1 c cs2 fs :
  enabled c = false ->
  main fl chain_of fuel (cs1 ++ c :: cs2) fs
    = main fl chain_of fuel (cs1 ++ cs2) fs.
Proof.
  intros Hd. rewrite !main_app.
  destruct (main fl chain_of fuel cs1 fs) as [fs1 [[]| |]]; try reflexivity.
  cbn [main]. unfold process_contract. rewrite Hd. reflexivity.
Qed.


End Run.

Lemma run_stops_at_the_first_error_witness :
  main integer_floats (fun c => if String.eqb (name c) "stale"
                                then stale_chain else sample_chain) 1
    [sample_config] [] =
    ([("vault", (column_names,
                 [{| row_address := "0xB2"; amount_pct := 25;
                     balance_usd := "0"; is_contract := false |}]))],
     Returned tt) /\
  main integer_floats (fun c => if String.eqb (name c) "stale"
                                then stale_chain else sample_chain) 1
    ([sample_config] ++ renamed sample_config "stale"
                        :: [renamed sample_config "other"]) [] =
    ([("vault", (column_names,
                 [{| row_address := "0xB2"; amount_pct := 25;
                     balance_usd := "0"; is_contract := false |}]))],
     Raised (AssertionError
               "please update lp address and abi in contract info")).
Proof.
  split; [reflexivity|].
  apply (run_stops_at_the_first_error integer_floats _ 1%nat
           [sample_config] (renamed sample_config "stale")
           [renamed sample_config "other"] []);
    reflexivity.
Defined.

Lemma disabled_contract_is_skipped_witness :
  enabled (disabled sample_config) = false /\
  main integer_floats (fun _ => sample_chain) 1
    ([sample_config] ++ disabled sample_config :: [sample_config]) []
  = main integer_floats (fun _ => sample_chain) 1
      ([sample_config] ++ [sample_config]) [].
Proof.
  split; [reflexivity|].
  apply (disabled_contract_is_skipped integer_floats (fun _ => sample_chain)
           1%nat [sample_config] (disabled sample_config) [sample_config] []).
  reflexivity.
Defined.


(** * Further properties of [millify] *)

Lemma holds_below_spec n f z :
  holds_below n f = true -> 0 <= z < Z.of_nat n -> f z = true.
Proof.
  unfold holds_below. intros H Hz.
  rewrite forallb_forall in H. apply H.
  apply in_map_iff. exists (Z.to_nat z). split; [lia|].
  apply in_seq. lia.
Qed.

Lemma returns_string_spec o s : returns_string o s = true -> o = Returned s.
Proof.
  destruct o as [t| |]; simpl; try discriminate.
  intros H. apply String.eqb_eq in H. now subst.
Qed.

Lemma float_of_int_exact n :
  0 <= n < 2 ^ 53 -> Millify.float_of_int n = Returned n.
Proof.
  intros [H0 H1]. unfold Millify.float_of_int.
  rewrite (Z.abs_eq n) by lia.
  assert (He : Z.log2 n - 52 <= 0).
  { destruct (Z.eq_dec n 0) as [->|Hn]; [simpl; lia|].
    assert (Z.log2 n < 53) by (apply Z.log2_lt_pow2; lia). lia. }
  replace (Z.log2 n - 52 <=? 0) with true by (symmetry; now apply Z.leb_le).
  assert (H2 : 2 ^ 53 < 2 ^ 1024) by (apply Z.pow_lt_mono_r; lia).
  replace (2 ^ 1024 <=? n) with false by (symmetry; apply Z.leb_gt; lia).
  f_equal. destruct (Z.eq_dec n 0) as [->|Hn]; [reflexivity|].
  rewrite Z.sgn_pos by lia. lia.
Qed.

Lemma thousands_upper k : forall fuel x,
  x < 1000 ^ Z.of_nat (S k) -> Millify.thousands fuel x <= Z.of_nat k.
Proof.
  induction k as [|k IH]; intros fuel x Hx;
    (destruct fuel as [|fuel]; cbn [Millify.thousands]; [lia|]).
  - change (1000 ^ Z.of_nat 1) with 1000 in Hx.
    replace (x <? 1000) with true by (symmetry; apply Z.ltb_lt; lia). lia.
  - destruct (x <? 1000) eqn:E; [lia|]. apply Z.ltb_ge in E.
    rewrite (Nat2Z.inj_succ (S k)), Z.pow_succ_r in Hx by lia.
    assert (x / 1000 < 1000 ^ Z.of_nat (S k))
      by (apply Z.div_lt_upper_bound; lia).
    specialize (IH fuel (x / 1000) H). lia.
Qed.

(** X13. Below 10^12 the suffix follows the magnitude: an argument from
    1000^k up to, but not including, 1000^(k+1) is shown as the decimal
    representation of an integer from 1 to 1000 followed by the k-th of the
    suffixes "", " K", " M", " B". *)
Theorem millify_suffix_follows_magnitude n (k : nat) :
  (k <= 3)%nat ->
  1000 ^ Z.of_nat k <= n < 1000 ^ Z.of_nat (S k) ->
  exists i, 1 <= i <= 1000 /\
    Millify.millify n
    = Returned (String.append (Millify.digits i)
                  (nth k Millify.millnames "")).
Proof.
  intros Hk [Hlo Hhi].
  assert (Hpos : 1 <= n).
  { assert (0 < 1000 ^ Z.of_nat k) by (apply Z.pow_pos_nonneg; lia). lia. }
  assert (Hbig : 1000 ^ Z.of_nat (S k) <= 1000 ^ 4)
    by (apply Z.pow_le_mono_r; lia).
  assert (H53 : n < 2 ^ 53)
    by (change (1000 ^ 4) with 1000000000000 in Hbig;
        change (2 ^ 53) with 9007199254740992; lia).
  unfold Millify.millify. rewrite float_of_int_exact by lia. cbn [bind].
  replace (n =? 0) with false by (symmetry; apply Z.eqb_neq; lia).
  rewrite (Z.abs_eq n) by lia.
  assert (Hth : Millify.floor_log10_div3 n = Z.of_nat k).
  { unfold Millify.floor_log10_div3. apply Z.le_antisymm.
    - now apply thousands_upper.
    - apply thousands_lower; [|exact Hlo].
      assert (Hl : Z.log2 (1000 ^ Z.of_nat k) <= Z.log2 n)
        by (apply Z.log2_le_mono; exact Hlo).
      destruct k as [|[|[|[|k]]]]; [lia| | | |lia].
      + change (Z.log2 (1000 ^ Z.of_nat 1)) with 9 in Hl. lia.
      + change (Z.log2 (1000 ^ Z.of_nat 2)) with 19 in Hl. lia.
      + change (Z.log2 (1000 ^ Z.of_nat 3)) with 29 in Hl. lia. }
  rewrite Hth. change (Z.of_nat (List.length Millify.millnames) - 1) with 4.
  rewrite (Z.min_r 4) by lia. rewrite (Z.max_r 0) by lia.
  rewrite Nat2Z.id.
  assert (Hb : 10 ^ (3 * Z.of_nat k) = 1000 ^ Z.of_nat k)
    by (rewrite Z.pow_mul_r by lia; reflexivity).
  rewrite Hb.
  assert (Hbpos : 0 < 1000 ^ Z.of_nat k) by (apply Z.pow_pos_nonneg; lia).
  rewrite Nat2Z.inj_succ, Z.pow_succ_r in Hhi by lia.
  replace (n <? 0) with false by (symmetry; apply Z.ltb_ge; lia).
  destruct (Millify.float_div n (1000 ^ Z.of_nat k)) as [m e] eqn:Hd.
  exists (Millify.shown m e). split; [split|reflexivity].
  - apply (shown_lower n (1000 ^ Z.of_nat k) 1 m e); try assumption;
      [change (2 ^ 53) with 9007199254740992|]; lia.
  - apply (shown_upper n (1000 ^ Z.of_nat k) 1000 m e); try assumption; lia.
Qed.

Lemma millify_suffix_follows_magnitude_witness :
  (2 <= 3)%nat /\
  1000 ^ Z.of_nat 2 <= 1500000 < 1000 ^ Z.of_nat 3 /\
  Millify.millify 1500000 = Returned "2 M" /\
  exists i, 1 <= i <= 1000 /\
    Millify.millify 1500000
    = Returned (String.append (Millify.digits i)
                  (nth 2 Millify.millnames "")).
Proof.
  split; [lia|]. split; [vm_compute; split; [discriminate|reflexivity]|].
  split; [vm_compute; reflexivity|].
  apply (millify_suffix_follows_magnitude 1500000 2).
  - lia.
  - vm_compute; split; [discriminate|reflexivity].
Defined.

(** X14. An integer from 0 to 999 is shown as it is, without a suffix. *)
Theorem millify_below_thousand_is_the_number n :
  0 <= n < 1000 ->
  Millify.millify n = Returned (Millify.digits n).
Proof.
  intros Hn. apply returns_string_spec.
  apply (holds_below_spec 1000
           (fun z => returns_string (Millify.millify z) (Millify.digits z)));
    [vm_compute; reflexivity|exact Hn].
Qed.

Lemma millify_below_thousand_is_the_number_witness :
  0 <= 42 < 1000 /\ Millify.millify 42 = Returned "42".
Proof.
  split; [lia|].
  apply (millify_below_thousand_is_the_number 42). lia.
Defined.

(** X15. The number shown is not kept under 1000: every integer from 999500 to
    999999 is shown as "1000 K", not as "1 M". *)
Theorem millify_shows_a_thousand_thousands n :
  999500 <= n <= 999999 ->
  Millify.millify n = Returned "1000 K".
Proof.
  intros Hn. apply returns_string_spec.
  replace n with (999500 + (n - 999500)) by lia.
  apply (holds_below_spec 500
           (fun z => returns_string (Millify.millify (999500 + z)) "1000 K"));
    [vm_compute; reflexivity|lia].
Qed.

Lemma millify_shows_a_thousand_thousands_witness :
  999500 <= 999999 <= 999999 /\
  Millify.millify 999999 = Returned "1000 K".
Proof.
  split; [lia|].
  apply (millify_shows_a_thousand_thousands 999999). lia.
Defined.

(** X16. Halves go to the even neighbour: k thousands and five hundred, for k
    from 1 to 998, is shown as k thousands when k is even and as k + 1
    thousands when k is odd. *)
Theorem millify_rounds_half_to_even k :
  1 <= k <= 998 ->
  Millify.millify (1000 * k + 500)
  = Returned (String.append
                (Millify.digits (if Z.even k then k else k + 1)) " K").
Proof.
  intros Hk. apply returns_string_spec.
  assert (H : (k =? 0) ||
              returns_string (Millify.millify (1000 * k + 500))
                (String.append
                   (Millify.digits (if Z.even k then k else k + 1)) " K")
              = true).
  { apply (holds_below_spec 999
             (fun z => (z =? 0) ||
                       returns_string (Millify.millify (1000 * z + 500))
                         (String.append
                            (Millify.digits (if Z.even z then z else z + 1))
                            " K")));
      [vm_compute; reflexivity|lia]. }
  apply orb_true_iff in H as [H|H]; [apply Z.eqb_eq in H; lia|exact H].
Qed.

Lemma millify_rounds_half_to_even_witness :
  1 <= 2 <= 998 /\
  Millify.millify 2500 = Returned "2 K" /\
  Millify.millify (1000 * 2 + 500)
  = Returned (String.append
                (Millify.digits (if Z.even 2 then 2 else 2 + 1)) " K").
Proof.
  split; [lia|]. split; [vm_compute; reflexivity|].
  apply (millify_rounds_half_to_even 2). lia.
Defined.

Lemma float_of_int_opp n :
  0 < n ->
  (exists x, 0 < x /\ Millify.float_of_int n = Returned x /\
             Millify.float_of_int (- n) = Returned (- x)) \/
  (Millify.float_of_int n = Raised OverflowError /\
   Millify.float_of_int (- n) = Raised OverflowError).
Proof.
  intros Hn. unfold Millify.float_of_int.
  rewrite Z.abs_opp, (Z.abs_eq n) by lia.
  rewrite Z.sgn_opp, (Z.sgn_pos n) by lia.
  set (x := if Z.log2 n - 52 <=? 0 then n
            else Millify.round_half_even n (2 ^ (Z.log2 n - 52))
                 * 2 ^ (Z.log2 n - 52)).
  assert (Hx : 0 < x).
  { unfold x. destruct (Z.log2 n - 52 <=? 0) eqn:He; [exact Hn|].
    apply Z.leb_gt in He.
    set (P := 2 ^ (Z.log2 n - 52)).
    assert (HP : 0 < P) by (apply Z.pow_pos_nonneg; lia).
    pose proof (Z.log2_spec n Hn) as [Hl _].
    assert (P <= n).
    { eapply Z.le_trans; [|exact Hl]. apply Z.pow_le_mono_r; lia. }
    assert (1 <= n / P) by (apply Z.div_le_lower_bound; lia).
    pose proof (round_half_even_bounds n P). nia. }
  destruct (2 ^ 1024 <=? x); [right; split; reflexivity|].
  left. exists x. split; [exact Hx|]. split; f_equal; lia.
Qed.

(** X17. A negative integer is shown as its absolute value with a minus sign
    in front, and raises when its absolute value does. *)
Theorem millify_of_a_negative_number n :
  0 < n -> Millify.millify (- n) = negated (Millify.millify n).
Proof.
  intros Hn. unfold Millify.millify.
  destruct (float_of_int_opp n Hn) as [[x [Hx [H1 H2]]]|[H1 H2]];
    rewrite H1, H2; cbn [bind]; [|reflexivity].
  replace (- x =? 0) with false by (symmetry; apply Z.eqb_neq; lia).
  replace (x =? 0) with false by (symmetry; apply Z.eqb_neq; lia).
  rewrite Z.abs_opp.
  replace (- x <? 0) with true by (symmetry; apply Z.ltb_lt; lia).
  replace (x <? 0) with false by (symmetry; apply Z.ltb_ge; lia).
  destruct (Millify.float_div (Z.abs x) _) as [m e].
  reflexivity.
Qed.

Lemma millify_of_a_negative_number_witness :
  0 < 1500 /\
  Millify.millify (- 1500) = Returned "-2 K" /\
  Millify.millify (- 1500) = negated (Millify.millify 1500).
Proof.
  split; [lia|]. split; [vm_compute; reflexivity|].
  apply (millify_of_a_negative_number 1500). lia.
Defined.

(** * A provider that is down *)

(** X18. A provider whose log fetch raises on every request keeps the scan in
    its loop: once the assertion on the window has passed, no number of passes
    makes the scan return or raise, it retries at width 1 for ever. *)
Theorem scan_of_a_dead_provider_never_ends ci bn fuel :
  TopHolders.chunk_size ci <= TopHolders.n_blocks ci ->
  scan ci unreachable_provider bn fuel = Running.
Proof.
  intros Hle. unfold scan, py_assert.
  replace (TopHolders.chunk_size ci <=? TopHolders.n_blocks ci) with true
    by (symmetry; now apply Z.leb_le).
  cbn [bind]. apply unreachable_provider_never_returns.
Qed.

Lemma scan_of_a_dead_provider_never_ends_witness :
  TopHolders.chunk_size scenario_config <= TopHolders.n_blocks scenario_config /\
  scan scenario_config unreachable_provider 0 5000 = Running.
Proof.
  split; [vm_compute; discriminate|].
  apply (scan_of_a_dead_provider_never_ends scenario_config 0 5000%nat).
  vm_compute; discriminate.
Defined.
